(** * vault-couchbase-database-plugin: the credential lifecycle manager

    A shallow embedding of [couchbase/connection_producer.go],
    [couchbase/couchbase.go] and [couchbase/util.go].

    The Go code mutates one [couchbaseConnectionProducer] through a pointer
    and talks to the cluster through library calls.  Here every operation
    takes the producer and the history of library calls made so far (the
    trace) and returns its Go results together with the producer and the
    trace as it leaves them.  What a library call answers is not decided by
    this repository: it is read from a [World], a record of oracles that
    see the history and the arguments of the call.  Theorems quantify over
    every world.

    Every exported operation of the Go code that touches the producer
    takes the producer's mutex on entry and releases it by [defer]; one
    model function is therefore one critical section, and the mutex itself
    is not represented. *)

From Stdlib Require Import String Ascii List Arith Lia.
From stdpp Require Import base option list strings gmap.

Import ListNotations.
Local Open Scope string_scope.
Local Open Scope list_scope.

(** ** Go values *)

(** Go [error] values.  [nil] is [None] of [option error]. *)
Inductive error : Type :=
| ErrNotInitialized                         (* connutil.ErrNotInitialized *)
| ErrEmptyCreationStatement                 (* dbutil.ErrEmptyCreationStatement *)
| ErrorsNew (msg : string)                  (* errors.New, fmt.Errorf without verbs *)
| ErrorsWrap (cause : error) (msg : string) (* errors.Wrap, errors.Wrapf *)
| ErrwrapWrapf (format : string) (cause : error) (* errwrap.Wrapf *)
| LibraryError (msg : string).              (* an error made by a library call *)

(** A Go result pair [(v, err)]: either the value, or a non-nil error. *)
Inductive result (A : Type) : Type :=
| Ok (a : A)
| Err (e : error).
Arguments Ok {A} a.
Arguments Err {A} e.

Definition is_Err {A} (r : result A) : bool :=
  match r with Ok _ => false | Err _ => true end.

(** A value of a [map[string]interface{}] configuration. *)
Inductive ConfValue : Type :=
| CString (s : string)
| CBool (b : bool).

Abbreviation Conf := (gmap string ConfValue).

(** [*gocb.Cluster]: the live session.  [clusterId] stands for the pointer. *)
Record Cluster : Type := mkCluster {
  clusterId : nat;
  connectTimeout : nat;          (* seconds *)
  serverConnectTimeout : nat     (* seconds *)
}.

Definition SetConnectTimeout (cl : Cluster) (secs : nat) : Cluster :=
  mkCluster (clusterId cl) secs (serverConnectTimeout cl).

Definition SetServerConnectTimeout (cl : Cluster) (secs : nat) : Cluster :=
  mkCluster (clusterId cl) (connectTimeout cl) secs.

(** [*gocb.ClusterManager]: the management handle derived from a cluster
    and an identity. *)
Record ClusterManager : Type := mkClusterManager {
  mgrCluster : Cluster;
  mgrUsername : string;
  mgrPassword : string
}.

(** [cluster.Manager(username, password)] *)
Definition Manager (cl : Cluster) (username password : string) : ClusterManager :=
  mkClusterManager cl username password.

(** [gocb.UserRole] and [gocb.UserSettings] *)
Record UserRole : Type := mkUserRole {
  urRole : string;
  urBucketName : string
}.

Record UserSettings : Type := mkUserSettings {
  usName : string;
  usPassword : string;
  usRoles : list UserRole
}.

(** util.go *)
Record CbRole : Type := mkCbRole {
  Role : string;
  BucketName : string
}.

Abbreviation CbRoles := (list CbRole).

Record CbStatement : Type := mkCbStatement {
  Roles : CbRoles
}.

(** [dbplugin.Statements], [dbplugin.UsernameConfig],
    [dbplugin.StaticUserConfig]: the fields this repository reads. *)
Record Statements : Type := mkStatements {
  Creation : list string
}.

Record UsernameConfig : Type := mkUsernameConfig {
  DisplayName : string;
  RoleName : string
}.

Record StaticUserConfig : Type := mkStaticUserConfig {
  suUsername : string;
  suPassword : string
}.

(** connection_producer.go: [couchbaseConnectionProducer].  The embedded
    mutex is left out (see the head of the file). *)
Record couchbaseConnectionProducer : Type := mkProducer {
  ConnectionString : string;
  Username : string;
  Password : string;
  Bucket : string;
  Type_ : string;
  Initialized : bool;
  RawConfig : Conf;
  cluster : option Cluster;
  clusterManager : option ClusterManager
}.

Definition set_RawConfig (c : couchbaseConnectionProducer) (conf : Conf) :=
  mkProducer (ConnectionString c) (Username c) (Password c) (Bucket c)
             (Type_ c) (Initialized c) conf (cluster c) (clusterManager c).

Definition set_Initialized (c : couchbaseConnectionProducer) (b : bool) :=
  mkProducer (ConnectionString c) (Username c) (Password c) (Bucket c)
             (Type_ c) b (RawConfig c) (cluster c) (clusterManager c).

Definition set_cluster (c : couchbaseConnectionProducer) (cl : option Cluster) :=
  mkProducer (ConnectionString c) (Username c) (Password c) (Bucket c)
             (Type_ c) (Initialized c) (RawConfig c) cl (clusterManager c).

Definition set_clusterManager (c : couchbaseConnectionProducer)
    (m : option ClusterManager) :=
  mkProducer (ConnectionString c) (Username c) (Password c) (Bucket c)
             (Type_ c) (Initialized c) (RawConfig c) (cluster c) m.

(** ** Library calls *)

(** One entry per call that leaves this repository for the cluster or for
    the credential generator, in the order the calls are made. *)
Inductive Event : Type :=
| EvConnect (connStr : string)
| EvAuthenticate (cl : Cluster) (username password : string)
| EvOpenBucket (cl : Cluster) (bucket password : string)
| EvClose (cl : Cluster)
| EvUpsertUser (m : option ClusterManager) (domain name : string)
               (settings : UserSettings)
| EvRemoveUser (m : option ClusterManager) (domain name : string)
| EvGenerateUsername (config : UsernameConfig)
| EvGeneratePassword.

Abbreviation Trace := (list Event).

(** What the libraries answer.  An oracle sees the calls made before it
    and its own arguments; [None] is a nil error.  A manager argument is
    an [option] because the Go field is a pointer that is nil until the
    first successful [Connection]. *)
Record World : Type := mkWorld {
  (* mapstructure.WeakDecode(conf, c): the decoded struct and the error *)
  mapstructure_WeakDecode :
    Conf -> couchbaseConnectionProducer ->
    couchbaseConnectionProducer * option error;
  gocb_Connect : Trace -> string -> option error;
  cluster_Authenticate : Trace -> Cluster -> string -> string -> option error;
  cluster_OpenBucket : Trace -> Cluster -> string -> string -> option error;
  cluster_Close : Trace -> Cluster -> option error;
  manager_UpsertUser :
    Trace -> option ClusterManager -> string -> string -> UserSettings ->
    option error;
  manager_RemoveUser :
    Trace -> option ClusterManager -> string -> string -> option error;
  (* json.Unmarshal([]byte(s), &cbStatement) on a zero cbStatement *)
  json_Unmarshal : string -> result CbStatement;
  dbutil_StatementCompatibilityHelper : Statements -> Statements;
  (* the random source behind GeneratePassword *)
  random_Password : Trace -> result string
}.

(** [mapstructure.WeakDecode] writes through reflection, which cannot set
    the unexported fields [cluster] and [clusterManager]. *)
Definition WeakDecode (w : World) (conf : Conf) (c : couchbaseConnectionProducer)
  : couchbaseConnectionProducer * option error :=
  let '(d, err) := mapstructure_WeakDecode w conf c in
  (set_clusterManager (set_cluster d (cluster c)) (clusterManager c), err).

(** ** connection_producer.go *)

Definition Connection (w : World) (c : couchbaseConnectionProducer) (tr : Trace)
  : result Cluster * couchbaseConnectionProducer * Trace :=
  if negb (Initialized c) then (Err ErrNotInitialized, c, tr)
  else
    let tr1 := tr ++ [EvConnect (ConnectionString c)] in
    match gocb_Connect w tr (ConnectionString c) with
    | Some err => (Err err, c, tr1)
    | None =>
      let cluster0 := mkCluster (length tr) 0 0 in
      let cluster1 := SetConnectTimeout cluster0 30 in
      let cluster2 := SetServerConnectTimeout cluster1 30 in
      let tr2 := tr1 ++ [EvAuthenticate cluster2 (Username c) (Password c)] in
      match cluster_Authenticate w tr1 cluster2 (Username c) (Password c) with
      | Some err => (Err err, c, tr2)
      | None =>
        (* must open a bucket in order to perform cluster level operations *)
        let tr3 := tr2 ++ [EvOpenBucket cluster2 (Bucket c) ""] in
        match cluster_OpenBucket w tr2 cluster2 (Bucket c) "" with
        | Some err =>
          (Err (ErrorsWrap err ("could not open bucket " ++ Bucket c)), c, tr3)
        | None =>
          let clusterManager0 := Manager cluster2 (Username c) (Password c) in
          let c1 := set_cluster c (Some cluster2) in
          let c2 := set_clusterManager c1 (Some clusterManager0) in
          (Ok cluster2, c2, tr3)
        end
      end
    end.

Definition Init (w : World) (c : couchbaseConnectionProducer) (tr : Trace)
    (conf : Conf) (verifyConnection : bool)
  : result Conf * couchbaseConnectionProducer * Trace :=
  let c := set_RawConfig c conf in
  let '(c, err) := WeakDecode w conf c in
  match err with
  | Some err => (Err err, c, tr)
  | None =>
    if (String.length (ConnectionString c) =? 0)%nat then
      (Err (ErrorsNew "connection_string cannot be empty"), c, tr)
    else if (String.length (Username c) =? 0)%nat then
      (Err (ErrorsNew "username cannot be empty"), c, tr)
    else if (String.length (Password c) =? 0)%nat then
      (Err (ErrorsNew "password cannot be empty"), c, tr)
    else
      let c := set_Initialized c true in
      if verifyConnection then
        match Connection w c tr with
        | (Err err, c, tr) =>
          (Err (ErrwrapWrapf "error verifying connection: {{err}}" err), c, tr)
        | (Ok _, c, tr) => (Ok conf, c, tr)
        end
      else (Ok conf, c, tr)
  end.

Definition Initialize (w : World) (c : couchbaseConnectionProducer) (tr : Trace)
    (conf : Conf) (verifyConnection : bool)
  : option error * couchbaseConnectionProducer * Trace :=
  match Init w c tr conf verifyConnection with
  | (Ok _, c, tr) => (None, c, tr)
  | (Err err, c, tr) => (Some err, c, tr)
  end.

Definition Close (w : World) (c : couchbaseConnectionProducer) (tr : Trace)
  : option error * couchbaseConnectionProducer * Trace :=
  match cluster c with
  | Some cl =>
    match cluster_Close w tr cl with
    | Some err => (Some err, c, tr ++ [EvClose cl])
    | None => (None, set_cluster c None, tr ++ [EvClose cl])
    end
  | None => (None, set_cluster c None, tr)
  end.

(** [secretValues]: the admin password maps to its redaction placeholder. *)
Definition secretValues (c : couchbaseConnectionProducer) : gmap string string :=
  {[ Password c := "[password]" ]}.

(** ** couchbase.go *)

Definition couchbaseTypeName : string := "couchbase".
Definition authDomain : string := "local".

(** The methods of the interface [credsutil.CredentialsProducer] that this
    repository calls.  Both may read a random source and a clock, so they
    see the history of calls. *)
Record CredentialsProducer : Type := mkCredentialsProducer {
  GenerateUsername : Trace -> UsernameConfig -> result string;
  GeneratePassword : Trace -> result string
}.

(** [credsutil.SQLCredentialsProducer]: the fields [new] sets. *)
Record SQLCredentialsProducer : Type := mkSQLCredentialsProducer {
  DisplayNameLen : nat;
  RoleNameLen : nat;
  UsernameLen : nat;
  Separator : string
}.

(** The truncation of a fragment: the first [n] bytes of [s], all of [s]
    when it is shorter. *)
Fixpoint truncate (n : nat) (s : string) : string :=
  match n, s with
  | O, _ => EmptyString
  | S _, EmptyString => EmptyString
  | S n', String a s' => String a (truncate n' s')
  end.

(** Modelled from the spec: the body of
    [SQLCredentialsProducer.GenerateUsername], which is not part of this
    repository's sources.  The specification gives it as a pure function
    of the template, bounded to a fixed maximum total length, built from
    the (possibly truncated) display-name and role-name fragments joined
    by a fixed separator character. *)
Definition SQLCredentialsProducer_GenerateUsername
    (scp : SQLCredentialsProducer) (config : UsernameConfig) : result string :=
  let displayName := truncate (DisplayNameLen scp) (DisplayName config) in
  let roleName := truncate (RoleNameLen scp) (RoleName config) in
  let username := String.append displayName (String.append (Separator scp) roleName) in
  Ok (truncate (UsernameLen scp) username).

(** [SQLCredentialsProducer] as a [CredentialsProducer].  The password is
    a random string: it is whatever the world's random source hands out. *)
Definition SQLCredentialsProducer_methods (w : World)
    (scp : SQLCredentialsProducer) : CredentialsProducer :=
  {| GenerateUsername := fun _ config =>
       SQLCredentialsProducer_GenerateUsername scp config;
     GeneratePassword := fun tr => random_Password w tr |}.

(** [Couchbase] embeds the connection producer (by pointer) and a
    credentials producer (an interface value). *)
Record Couchbase : Type := mkCouchbase {
  producer : couchbaseConnectionProducer;
  creds : CredentialsProducer
}.

Definition set_producer (c : Couchbase) (p : couchbaseConnectionProducer) :=
  mkCouchbase p (creds c).

(** [&couchbaseConnectionProducer{}] with [Type] assigned. *)
Definition new_connProducer : couchbaseConnectionProducer :=
  mkProducer "" "" "" "" couchbaseTypeName false ∅ None None.

Definition new_credsProducer : SQLCredentialsProducer :=
  {| DisplayNameLen := 15;
     RoleNameLen := 15;
     UsernameLen := 100;
     Separator := "_" |}.

Definition new (w : World) : Couchbase :=
  {| producer := new_connProducer;
     creds := SQLCredentialsProducer_methods w new_credsProducer |}.

Definition Type' (c : Couchbase) : result string := Ok couchbaseTypeName.

(** util.go: the loop appends one [gocb.UserRole] per role, in order. *)
Definition ToGocbUserRoles (roles : CbRoles) : list UserRole :=
  fold_left
    (fun userRoles r => userRoles ++ [mkUserRole (Role r) (BucketName r)])
    roles [].

Definition upsertUser (w : World) (clusterManager : option ClusterManager)
    (creationStatement username password : string) (tr : Trace)
  : result (string * string) * Trace :=
  match json_Unmarshal w creationStatement with
  | Err err => (Err (ErrorsWrap err "invalid creation statement"), tr)
  | Ok cbStatement =>
    if (length (Roles cbStatement) =? 0)%nat then
      (Err (ErrorsNew "at least one role should be given in creation statement"),
       tr)
    else
      let settings :=
        {| usName := username;
           usPassword := password;
           usRoles := ToGocbUserRoles (Roles cbStatement) |} in
      let tr1 := tr ++ [EvUpsertUser clusterManager authDomain username settings] in
      match manager_UpsertUser w tr clusterManager authDomain username settings with
      | Some err => (Err (ErrorsWrap err "error when upserting user"), tr1)
      | None => (Ok (username, password), tr1)
      end
  end.

(** [statements.Creation[0]]; every use is behind a [len(...) == 0] test. *)
Definition index0 (l : list string) : string := nth 0 l "".

(** Generates username and password, creates a user in the database with
    those credentials.  [expiration] is a Unix time. *)
Definition CreateUser (w : World) (c : Couchbase) (tr : Trace)
    (statements : Statements) (usernameConfig : UsernameConfig)
    (expiration : nat)
  : result (string * string) * Couchbase * Trace :=
  let statements := dbutil_StatementCompatibilityHelper w statements in
  if (length (Creation statements) =? 0)%nat then
    (Err ErrEmptyCreationStatement, c, tr)
  else
    match Connection w (producer c) tr with
    | (Err err, p, tr) => (Err err, set_producer c p, tr)
    | (Ok _, p, tr) =>
      let c := set_producer c p in
      let tr1 := tr ++ [EvGenerateUsername usernameConfig] in
      match GenerateUsername (creds c) tr usernameConfig with
      | Err err => (Err err, c, tr1)
      | Ok username =>
        let tr2 := tr1 ++ [EvGeneratePassword] in
        match GeneratePassword (creds c) tr1 with
        | Err err => (Err err, c, tr2)
        | Ok password =>
          let '(r, tr3) :=
            upsertUser w (clusterManager (producer c))
                       (index0 (Creation statements)) username password tr2 in
          (r, c, tr3)
        end
      end
    end.

(** Sets or creates a user with the given username and password. *)
Definition SetCredentials (w : World) (c : Couchbase) (tr : Trace)
    (statements : Statements) (staticConfig : StaticUserConfig)
  : result (string * string) * Couchbase * Trace :=
  let statements := dbutil_StatementCompatibilityHelper w statements in
  if (length (Creation statements) =? 0)%nat then
    (Err ErrEmptyCreationStatement, c, tr)
  else
    match Connection w (producer c) tr with
    | (Err err, p, tr) => (Err err, set_producer c p, tr)
    | (Ok _, p, tr) =>
      let c := set_producer c p in
      let '(r, tr1) :=
        upsertUser w (clusterManager (producer c))
                   (index0 (Creation statements))
                   (suUsername staticConfig) (suPassword staticConfig) tr in
      (r, c, tr1)
    end.

(** not supported in couchbase *)
Definition RenewUser (w : World) (c : Couchbase) (tr : Trace)
    (statements : Statements) (username : string) (expiration : nat)
  : option error * Couchbase * Trace :=
  (None, c, tr).

(** deletes user with the given username *)
Definition RevokeUser (w : World) (c : Couchbase) (tr : Trace)
    (statements : Statements) (username : string)
  : option error * Couchbase * Trace :=
  match Connection w (producer c) tr with
  | (Err err, p, tr) => (Some err, set_producer c p, tr)
  | (Ok _, p, tr) =>
    let c := set_producer c p in
    (manager_RemoveUser w tr (clusterManager (producer c)) authDomain username,
     c, tr ++ [EvRemoveUser (clusterManager (producer c)) authDomain username])
  end.

(** not supported in couchbase *)
Definition RotateRootCredentials (w : World) (c : Couchbase) (tr : Trace)
    (statements : list string)
  : result Conf * Couchbase * Trace :=
  (Err (ErrorsNew
          "root credential rotation is not currently implemented in couchbase"),
   c, tr).

(** ** What a trace says *)

Definition is_upsert (e : Event) : bool :=
  match e with EvUpsertUser _ _ _ _ => true | _ => false end.

Definition is_connect (e : Event) : bool :=
  match e with EvConnect _ => true | _ => false end.

(** The administrative upsert calls of a trace, and its connect calls. *)
Definition upsert_calls (tr : Trace) : Trace := List.filter is_upsert tr.
Definition connect_calls (tr : Trace) : Trace := List.filter is_connect tr.

(** ** Concrete worlds

    Worlds to run the model in.  [demoWorld] is a reachable cluster that
    accepts every call; the others differ from it in one oracle. *)

Definition dq : string := String (ascii_of_nat 34) EmptyString.

(** The statement of the repository's tests:
    {"roles": [{"role": "bucket_full_access","bucket_name": "Test"}]} *)
Definition testStatement : string :=
  String.concat dq
    ["{"; "roles"; ": [{"; "role"; ": "; "bucket_full_access"; ",";
     "bucket_name"; ": "; "Test"; "}]}"].

(** {"roles":[]} *)
Definition noRolesStatement : string :=
  String.concat dq ["{"; "roles"; ":[]}"].

Definition malformedStatement : string := "{roles".

Definition demo_Unmarshal (s : string) : result CbStatement :=
  if String.eqb s testStatement then
    Ok (mkCbStatement [mkCbRole "bucket_full_access" "Test"])
  else if String.eqb s noRolesStatement then Ok (mkCbStatement [])
  else Err (LibraryError "invalid character in creation statement").

(** Decoding of one string field: an absent key leaves the field as it
    is, a string is copied, a bool is weakly converted. *)
Definition demo_field (conf : Conf) (key old : string) : string :=
  match conf !! key with
  | Some (CString s) => s
  | Some (CBool true) => "1"
  | Some (CBool false) => "0"
  | None => old
  end.

Definition demo_WeakDecode (conf : Conf) (c : couchbaseConnectionProducer)
  : couchbaseConnectionProducer * option error :=
  (mkProducer (demo_field conf "connection_string" (ConnectionString c))
              (demo_field conf "username" (Username c))
              (demo_field conf "password" (Password c))
              (demo_field conf "bucket" (Bucket c))
              (Type_ c) (Initialized c) (RawConfig c)
              (cluster c) (clusterManager c),
   None).

Definition demoWorld : World :=
  {| mapstructure_WeakDecode := demo_WeakDecode;
     gocb_Connect := fun _ _ => None;
     cluster_Authenticate := fun _ _ _ _ => None;
     cluster_OpenBucket := fun _ _ _ _ => None;
     cluster_Close := fun _ _ => None;
     manager_UpsertUser := fun _ _ _ _ _ => None;
     manager_RemoveUser := fun _ _ _ _ => None;
     json_Unmarshal := demo_Unmarshal;
     dbutil_StatementCompatibilityHelper := fun st => st;
     random_Password := fun _ => Ok "A1a-0123456789abcdef" |}.

(** The cluster cannot be reached. *)
Definition unreachableWorld : World :=
  {| mapstructure_WeakDecode := demo_WeakDecode;
     gocb_Connect := fun _ _ => Some (LibraryError "no route to host");
     cluster_Authenticate := fun _ _ _ _ => None;
     cluster_OpenBucket := fun _ _ _ _ => None;
     cluster_Close := fun _ _ => None;
     manager_UpsertUser := fun _ _ _ _ _ => None;
     manager_RemoveUser := fun _ _ _ _ => None;
     json_Unmarshal := demo_Unmarshal;
     dbutil_StatementCompatibilityHelper := fun st => st;
     random_Password := fun _ => Ok "A1a-0123456789abcdef" |}.

(** Closing a cluster fails. *)
Definition closeFailsWorld : World :=
  {| mapstructure_WeakDecode := demo_WeakDecode;
     gocb_Connect := fun _ _ => None;
     cluster_Authenticate := fun _ _ _ _ => None;
     cluster_OpenBucket := fun _ _ _ _ => None;
     cluster_Close := fun _ _ => Some (LibraryError "close failed");
     manager_UpsertUser := fun _ _ _ _ _ => None;
     manager_RemoveUser := fun _ _ _ _ => None;
     json_Unmarshal := demo_Unmarshal;
     dbutil_StatementCompatibilityHelper := fun st => st;
     random_Password := fun _ => Ok "A1a-0123456789abcdef" |}.

(** The configuration of the repository's tests. *)
Definition testConf : Conf :=
  <["connection_string" := CString "couchbase://localhost"]>
  (<["username" := CString "admin"]>
  (<["password" := CString "password"]>
  (<["bucket" := CString "Test"]> ∅))).

(** The cluster of a first successful [Connection] on an empty trace. *)
Definition cluster0 : Cluster := mkCluster 0 30 30.

(** A producer after [Init] of [testConf] and one successful acquire. *)
Definition connectedProducer : couchbaseConnectionProducer :=
  mkProducer "couchbase://localhost" "admin" "password" "Test"
             couchbaseTypeName true testConf (Some cluster0)
             (Some (Manager cluster0 "admin" "password")).

Definition connectedTrace : Trace :=
  [EvConnect "couchbase://localhost";
   EvAuthenticate cluster0 "admin" "password";
   EvOpenBucket cluster0 "Test" ""].

(** ** Readings of the specification that the code does not follow

    Each is the sentence of the specification as a property of one call;
    the theorems below show the input at which it fails and what holds
    in its place. *)

(** An acquire that finds a cached connection hands it back and contacts
    nothing. *)
Definition acquire_reuses_cached (w : World) (c : couchbaseConnectionProducer)
    (tr : Trace) : Prop :=
  Initialized c = true ->
  forall cl, cluster c = Some cl -> Connection w c tr = (Ok cl, c, tr).

(** A call of [Init] that returns an error does not turn the flag on. *)
Definition init_flag_only_on_success (w : World)
    (c : couchbaseConnectionProducer) (tr : Trace) (conf : Conf)
    (verifyConnection : bool) : Prop :=
  forall e,
    (Init w c tr conf verifyConnection).1.1 = Err e ->
    Initialized c = false ->
    Initialized (Init w c tr conf verifyConnection).1.2 = false.

(** After [Close], whatever it returns, nothing is cached. *)
Definition close_always_clears (w : World) (c : couchbaseConnectionProducer)
    (tr : Trace) : Prop :=
  cluster (Close w c tr).1.2 = None.

(** ** Statements of a creation statement's fate *)

(** [e] is the error [upsertUser] gives for the statement [s]: the parse
    error for malformed JSON, the no-role error for an empty role list. *)
Definition rejected_statement (w : World) (s : string) (e : error) : Prop :=
  (exists cause,
      json_Unmarshal w s = Err cause /\
      e = ErrorsWrap cause "invalid creation statement")
  \/ (exists st,
      json_Unmarshal w s = Ok st /\ Roles st = [] /\
      e = ErrorsNew "at least one role should be given in creation statement").

(** The struct [Init] validates: [conf] stored, then decoded. *)
Definition decoded (w : World) (c : couchbaseConnectionProducer) (conf : Conf)
  : couchbaseConnectionProducer :=
  (WeakDecode w conf (set_RawConfig c conf)).1.

Definition decode_error (w : World) (c : couchbaseConnectionProducer)
    (conf : Conf) : option error :=
  (WeakDecode w conf (set_RawConfig c conf)).2.

(** The stored configuration the specification lists. *)
Definition configuration (c : couchbaseConnectionProducer)
  : string * string * string * string * bool :=
  (ConnectionString c, Username c, Password c, Bucket c, Initialized c).

(** ** A running instance *)

(** The plugin of [new], initialized from [testConf] and connected. *)
Definition connectedCouchbase : Couchbase :=
  set_producer (new demoWorld) connectedProducer.

Definition testUsernameConfig : UsernameConfig :=
  mkUsernameConfig "test-user" "test-role".

Definition noRoleError : error :=
  ErrorsNew "at least one role should be given in creation statement".

Definition parseError : error :=
  ErrorsWrap (LibraryError "invalid character in creation statement")
             "invalid creation statement".

(** One role of the statement as the cluster library takes it. *)
Definition toUserRole (r : CbRole) : UserRole :=
  mkUserRole (Role r) (BucketName r).

(** ** The states of a plugin

    The plugin of [new] and whatever the host's calls make of it.  [Init]
    and [Close] are the methods of the embedded connection producer. *)
Inductive reachable (w : World) : Couchbase -> Trace -> Prop :=
| reach_new : reachable w (new w) []
| reach_Init c tr conf verify :
    reachable w c tr ->
    reachable w (set_producer c (Init w (producer c) tr conf verify).1.2)
              (Init w (producer c) tr conf verify).2
| reach_Close c tr :
    reachable w c tr ->
    reachable w (set_producer c (Close w (producer c) tr).1.2)
              (Close w (producer c) tr).2
| reach_CreateUser c tr st cfg exp :
    reachable w c tr ->
    reachable w (CreateUser w c tr st cfg exp).1.2
              (CreateUser w c tr st cfg exp).2
| reach_SetCredentials c tr st sc :
    reachable w c tr ->
    reachable w (SetCredentials w c tr st sc).1.2
              (SetCredentials w c tr st sc).2
| reach_RenewUser c tr st username exp :
    reachable w c tr ->
    reachable w (RenewUser w c tr st username exp).1.2
              (RenewUser w c tr st username exp).2
| reach_RevokeUser c tr st username :
    reachable w c tr ->
    reachable w (RevokeUser w c tr st username).1.2
              (RevokeUser w c tr st username).2
| reach_RotateRootCredentials c tr statements :
    reachable w c tr ->
    reachable w (RotateRootCredentials w c tr statements).1.2
              (RotateRootCredentials w c tr statements).2.

(** ** Kinds of calls

    The calls of a trace by what they reach: the three calls of an
    acquire, the credential generator, and the administrative upsert,
    remove and close. *)
Definition is_connection_call (e : Event) : bool :=
  match e with
  | EvConnect _ | EvAuthenticate _ _ _ | EvOpenBucket _ _ _ => true
  | _ => false
  end.

Definition is_generate (e : Event) : bool :=
  match e with
  | EvGenerateUsername _ | EvGeneratePassword => true
  | _ => false
  end.

Definition is_remove (e : Event) : bool :=
  match e with EvRemoveUser _ _ _ => true | _ => false end.

Definition is_close (e : Event) : bool :=
  match e with EvClose _ => true | _ => false end.

Definition remove_calls (tr : Trace) : Trace := List.filter is_remove tr.
Definition close_calls (tr : Trace) : Trace := List.filter is_close tr.

(** [tr'] is [tr] followed by calls of the kinds [P] only. *)
Definition extends_by (P : Event -> bool) (tr tr' : Trace) : Prop :=
  exists evs, tr' = tr ++ evs /\ forallb P evs = true.

(** The cluster an acquire made on the trace [tr] returns. *)
Definition acquired (tr : Trace) : Cluster := mkCluster (length tr) 30 30.

(** The three calls of a successful acquire made on the trace [tr]. *)
Definition acquire_calls (c : couchbaseConnectionProducer) (tr : Trace) : Trace :=
  [EvConnect (ConnectionString c);
   EvAuthenticate (acquired tr) (Username c) (Password c);
   EvOpenBucket (acquired tr) (Bucket c) ""].

(** Every exported field of the producer: what a configuration decides. *)
Definition stored (c : couchbaseConnectionProducer)
  : string * string * string * string * string * bool * Conf :=
  (ConnectionString c, Username c, Password c, Bucket c, Type_ c,
   Initialized c, RawConfig c).

(** A cached cluster has both connect timeouts at 30 seconds and comes
    with the manager derived from it. *)
Definition cache_consistent (c : couchbaseConnectionProducer) : Prop :=
  forall cl,
    cluster c = Some cl ->
    connectTimeout cl = 30 /\ serverConnectTimeout cl = 30
    /\ exists m, clusterManager c = Some m /\ mgrCluster m = cl.

(** A world whose cluster calls answer as given and that otherwise is
    [demoWorld]. *)
Definition worldWith (connect authenticate openBucket upsert remove : option error)
  : World :=
  {| mapstructure_WeakDecode := demo_WeakDecode;
     gocb_Connect := fun _ _ => connect;
     cluster_Authenticate := fun _ _ _ _ => authenticate;
     cluster_OpenBucket := fun _ _ _ _ => openBucket;
     cluster_Close := fun _ _ => None;
     manager_UpsertUser := fun _ _ _ _ _ => upsert;
     manager_RemoveUser := fun _ _ _ _ => remove;
     json_Unmarshal := demo_Unmarshal;
     dbutil_StatementCompatibilityHelper := fun st => st;
     random_Password := fun _ => Ok "A1a-0123456789abcdef" |}.

(** A plugin like [connectedCouchbase] whose credentials producer cannot
    generate a username. *)
Definition noUsernameCouchbase : Couchbase :=
  {| producer := connectedProducer;
     creds :=
       {| GenerateUsername := fun _ _ => Err (LibraryError "no entropy");
          GeneratePassword := fun _ => Ok "A1a-0123456789abcdef" |} |}.

(** An administrative call is made on a manager, not on a nil pointer. *)
Definition has_manager (e : Event) : bool :=
  match e with
  | EvUpsertUser None _ _ _ | EvRemoveUser None _ _ => false
  | _ => true
  end.

(** * Properties *)

Ltac case_oracles :=
  repeat match goal with
         | |- context [match ?x with _ => _ end] => destruct x eqn:?
         end.

Example Init_testConf :
  Init demoWorld new_connProducer [] testConf true
  = (Ok testConf, connectedProducer, connectedTrace).
Proof. vm_compute. reflexivity. Qed.

(** ** Connection *)

Lemma Connection_not_initialized w c tr :
  Initialized c = false -> Connection w c tr = (Err ErrNotInitialized, c, tr).
Proof. intros H. unfold Connection. rewrite H. reflexivity. Qed.

(** A failed acquire retains no partial state. *)
Lemma Connection_Err_state w c tr e c' tr' :
  Connection w c tr = (Err e, c', tr') -> c' = c.
Proof.
  unfold Connection. case_oracles; intros H; inversion H; reflexivity.
Qed.

(** A successful acquire stores the cluster and the manager derived from
    it, and touches no other field. *)
Lemma Connection_Ok_state w c tr cl c' tr' :
  Connection w c tr = (Ok cl, c', tr') ->
  c' = set_clusterManager (set_cluster c (Some cl))
                          (Some (Manager cl (Username c) (Password c)))
  /\ cl = mkCluster (length tr) 30 30.
Proof.
  unfold Connection. case_oracles; intros H; inversion H; subst.
  split; reflexivity.
Qed.

(** An acquire only appends connection calls to the trace. *)
Lemma Connection_trace w c tr :
  exists evs, (Connection w c tr).2 = tr ++ evs /\ upsert_calls evs = [].
Proof.
  unfold Connection. case_oracles; simpl; rewrite <- ?app_assoc; simpl.
  all: try (eexists; split; [reflexivity | reflexivity]).
  exists []. rewrite app_nil_r. auto.
Qed.

Lemma upsert_calls_app tr evs :
  upsert_calls (tr ++ evs) = upsert_calls tr ++ upsert_calls evs.
Proof. apply List.filter_app. Qed.

Lemma Connection_upsert_calls w c tr :
  upsert_calls (Connection w c tr).2 = upsert_calls tr.
Proof.
  destruct (Connection_trace w c tr) as (evs & -> & Hevs).
  rewrite upsert_calls_app, Hevs. apply app_nil_r.
Qed.

(** The cached reference plays no part in an acquire. *)
Lemma Connection_ignores_cached w c tr cached :
  (Connection w (set_cluster c cached) tr).1.1 = (Connection w c tr).1.1
  /\ (Connection w (set_cluster c cached) tr).2 = (Connection w c tr).2.
Proof.
  unfold Connection; simpl. case_oracles; simpl; auto.
Qed.

Lemma connect_calls_app tr evs :
  connect_calls (tr ++ evs) = connect_calls tr ++ connect_calls evs.
Proof. apply List.filter_app. Qed.

(** A second acquire on the connected producer: a second connect call,
    and a cluster that is not the cached one. *)
Example second_acquire_connects_again :
  Connection demoWorld connectedProducer connectedTrace
  = (Ok (mkCluster 3 30 30),
     set_clusterManager
       (set_cluster connectedProducer (Some (mkCluster 3 30 30)))
       (Some (Manager (mkCluster 3 30 30) "admin" "password")),
     connectedTrace
       ++ [EvConnect "couchbase://localhost";
           EvAuthenticate (mkCluster 3 30 30) "admin" "password";
           EvOpenBucket (mkCluster 3 30 30) "Test" ""]).
Proof. vm_compute. reflexivity. Qed.

(** C1, as the specification words it, fails: an acquire on a producer
    that holds a cached connection does not hand that connection back; it
    connects again and caches the new cluster. *)
Lemma acquire_does_not_reuse_cached :
  ~ acquire_reuses_cached demoWorld connectedProducer connectedTrace.
Proof.
  intros H. specialize (H eq_refl cluster0 eq_refl).
  vm_compute in H. discriminate H.
Qed.

(** C1 (amended): while initialized, every acquire establishes a new
    connection: it issues exactly one more connect call than the trace
    held, and its result and calls are the same whatever the cached
    reference is (absent, present, or cleared by a close).  When the
    acquire succeeds, the cluster it returns and the manager derived from
    it are what the producer caches afterwards. *)
Theorem Connection_always_connects_and_caches w c tr :
  Initialized c = true ->
  connect_calls (Connection w c tr).2
    = connect_calls tr ++ [EvConnect (ConnectionString c)]
  /\ (forall cached,
        (Connection w (set_cluster c cached) tr).1.1 = (Connection w c tr).1.1
        /\ (Connection w (set_cluster c cached) tr).2 = (Connection w c tr).2)
  /\ (forall cl,
        (Connection w c tr).1.1 = Ok cl ->
        cluster (Connection w c tr).1.2 = Some cl
        /\ clusterManager (Connection w c tr).1.2
           = Some (Manager cl (Username c) (Password c))).
Proof.
  intros Hinit. split; [| split].
  - unfold Connection. rewrite Hinit. simpl.
    case_oracles; simpl; rewrite ?connect_calls_app; simpl;
      rewrite ?app_nil_r; reflexivity.
  - intros cached. apply Connection_ignores_cached.
  - intros cl Hok.
    destruct (Connection w c tr) as [[r c'] tr'] eqn:E. simpl in *. subst r.
    apply Connection_Ok_state in E. destruct E as [-> _]. split; reflexivity.
Qed.

Lemma Connection_always_connects_and_caches_witness :
  Initialized connectedProducer = true
  /\ connect_calls (Connection demoWorld connectedProducer connectedTrace).2
     = connect_calls connectedTrace
       ++ [EvConnect (ConnectionString connectedProducer)].
Proof.
  split; [reflexivity |].
  apply (Connection_always_connects_and_caches
           demoWorld connectedProducer connectedTrace).
  reflexivity.
Defined.

(** ** Init *)

Lemma Init_unfold w c tr conf verify :
  Init w c tr conf verify =
  let d := decoded w c conf in
  match decode_error w c conf with
  | Some err => (Err err, d, tr)
  | None =>
    if (String.length (ConnectionString d) =? 0)%nat then
      (Err (ErrorsNew "connection_string cannot be empty"), d, tr)
    else if (String.length (Username d) =? 0)%nat then
      (Err (ErrorsNew "username cannot be empty"), d, tr)
    else if (String.length (Password d) =? 0)%nat then
      (Err (ErrorsNew "password cannot be empty"), d, tr)
    else if verify then
      match Connection w (set_Initialized d true) tr with
      | (Err err, c', tr') =>
        (Err (ErrwrapWrapf "error verifying connection: {{err}}" err), c', tr')
      | (Ok _, c', tr') => (Ok conf, c', tr')
      end
    else (Ok conf, set_Initialized d true, tr)
  end.
Proof.
  unfold Init, decoded, decode_error.
  destruct (WeakDecode w conf (set_RawConfig c conf)) as [d err].
  reflexivity.
Qed.

Lemma length_zero_empty (s : string) :
  (String.length s =? 0)%nat = true <-> s = "".
Proof.
  destruct s; simpl; split; intros H; try reflexivity; discriminate H.
Qed.

Lemma Connection_keeps_Initialized w c tr :
  Initialized (Connection w c tr).1.2 = Initialized c.
Proof.
  destruct (Connection w c tr) as [[[cl | e] c'] tr'] eqn:E; simpl.
  - apply Connection_Ok_state in E. destruct E as [-> _]. reflexivity.
  - apply Connection_Err_state in E. subst. reflexivity.
Qed.

Example Init_unreachable :
  Init unreachableWorld new_connProducer [] testConf true
  = (Err (ErrwrapWrapf "error verifying connection: {{err}}"
                       (LibraryError "no route to host")),
     mkProducer "couchbase://localhost" "admin" "password" "Test"
                couchbaseTypeName true testConf None None,
     [EvConnect "couchbase://localhost"]).
Proof. vm_compute. reflexivity. Qed.

(** C2, as the specification words it, fails: [Init] with verification
    requested against an unreachable cluster returns an error and leaves
    the flag, false before the call, set to true. *)
Lemma init_sets_flag_on_verification_failure :
  ~ init_flag_only_on_success unreachableWorld new_connProducer [] testConf true.
Proof.
  intros H.
  specialize (H (ErrwrapWrapf "error verifying connection: {{err}}"
                              (LibraryError "no route to host"))).
  vm_compute in H. specialize (H eq_refl eq_refl). discriminate H.
Qed.

Lemma Connection_keeps_config w c tr :
  configuration (Connection w c tr).1.2 = configuration c.
Proof.
  destruct (Connection w c tr) as [[[cl | e] c'] tr'] eqn:E; simpl.
  - apply Connection_Ok_state in E. destruct E as [-> _]. reflexivity.
  - apply Connection_Err_state in E. subst. reflexivity.
Qed.

(** C2 (amended): [Init] rejects an empty endpoint, admin username or
    admin password with an error, and a rejected call assigns nothing: it
    leaves the producer as decoding left it and contacts nothing.  The
    flag is set to true as soon as validation has passed, before any
    verification: a call that returns success leaves it true with the
    three fields non-empty, and a call whose verification acquire fails
    returns that failure wrapped and leaves the flag true as well.  An
    error return with the flag true that decoding did not already leave
    true is always such a verification failure. *)
Theorem Init_validates_then_sets_flag w c tr conf verify :
  (decode_error w c conf = None ->
   ConnectionString (decoded w c conf) = ""
   \/ Username (decoded w c conf) = ""
   \/ Password (decoded w c conf) = "" ->
   is_Err (Init w c tr conf verify).1.1 = true
   /\ (Init w c tr conf verify).1.2 = decoded w c conf
   /\ (Init w c tr conf verify).2 = tr)
  /\ (forall v,
        (Init w c tr conf verify).1.1 = Ok v ->
        Initialized (Init w c tr conf verify).1.2 = true
        /\ ConnectionString (Init w c tr conf verify).1.2 <> ""
        /\ Username (Init w c tr conf verify).1.2 <> ""
        /\ Password (Init w c tr conf verify).1.2 <> "")
  /\ (forall e,
        decode_error w c conf = None ->
        ConnectionString (decoded w c conf) <> "" ->
        Username (decoded w c conf) <> "" ->
        Password (decoded w c conf) <> "" ->
        verify = true ->
        (Connection w (set_Initialized (decoded w c conf) true) tr).1.1 = Err e ->
        (Init w c tr conf verify).1.1
          = Err (ErrwrapWrapf "error verifying connection: {{err}}" e)
        /\ Initialized (Init w c tr conf verify).1.2 = true)
  /\ (forall e,
        (Init w c tr conf verify).1.1 = Err e ->
        Initialized (Init w c tr conf verify).1.2 = true ->
        Initialized (decoded w c conf) = true
        \/ (verify = true /\
            exists cause,
              e = ErrwrapWrapf "error verifying connection: {{err}}" cause)).
Proof.
  rewrite Init_unfold. cbv zeta.
  set (d := decoded w c conf).
  pose proof (Connection_keeps_config w (set_Initialized d true) tr) as Hcfg.
  destruct (decode_error w c conf) as [derr |] eqn:Hdec.
  { repeat split; try discriminate; simpl in *; auto. }
  destruct (String.length (ConnectionString d) =? 0)%nat eqn:H1.
  { apply length_zero_empty in H1.
    repeat split; try discriminate; simpl in *; auto; congruence. }
  destruct (String.length (Username d) =? 0)%nat eqn:H2.
  { apply length_zero_empty in H2.
    repeat split; try discriminate; simpl in *; auto; congruence. }
  destruct (String.length (Password d) =? 0)%nat eqn:H3.
  { apply length_zero_empty in H3.
    repeat split; try discriminate; simpl in *; auto; congruence. }
  assert (N1 : ConnectionString d <> "")
    by (intros E; apply length_zero_empty in E; congruence).
  assert (N2 : Username d <> "")
    by (intros E; apply length_zero_empty in E; congruence).
  assert (N3 : Password d <> "")
    by (intros E; apply length_zero_empty in E; congruence).
  destruct verify.
  - destruct (Connection w (set_Initialized d true) tr) as [[[cl | e0] c'] tr'];
      simpl in *; unfold configuration in Hcfg; simpl in Hcfg;
      inversion Hcfg as [[E1 E2 E3 E4 E5]].
    + split; [intros _ [?|[?|?]]; congruence |].
      split; [intros v _; rewrite E1, E2, E3; auto |].
      split; [intros e _ _ _ _ _ ?; discriminate |].
      intros e ?; discriminate.
    + split; [intros _ [?|[?|?]]; congruence |].
      split; [intros v ?; discriminate |].
      split; [intros e _ _ _ _ _ He; inversion He; auto |].
      intros e He _. right. split; [reflexivity |].
      inversion He. eauto.
  - simpl.
    split; [intros _ [?|[?|?]]; congruence |].
    split; [intros v _; auto |].
    split; [intros e _ _ _ _ ?; discriminate |].
    intros e ?; discriminate.
Qed.

Lemma Init_validates_then_sets_flag_witness :
  (decode_error demoWorld new_connProducer ∅ = None
   /\ ConnectionString (decoded demoWorld new_connProducer ∅) = ""
   /\ is_Err (Init demoWorld new_connProducer [] ∅ false).1.1 = true
   /\ (Init demoWorld new_connProducer [] ∅ false).1.2
      = decoded demoWorld new_connProducer ∅)
  /\ (decode_error unreachableWorld new_connProducer testConf = None
      /\ (Connection unreachableWorld
            (set_Initialized (decoded unreachableWorld new_connProducer testConf)
                             true) []).1.1
         = Err (LibraryError "no route to host")
      /\ (Init unreachableWorld new_connProducer [] testConf true).1.1
         = Err (ErrwrapWrapf "error verifying connection: {{err}}"
                             (LibraryError "no route to host"))
      /\ Initialized (Init unreachableWorld new_connProducer [] testConf true).1.2
         = true).
Proof.
  split.
  - destruct (Init_validates_then_sets_flag
                demoWorld new_connProducer [] ∅ false) as (Hrej & _).
    destruct (Hrej eq_refl (or_introl eq_refl)) as (H1 & H2 & _).
    split; [reflexivity |]. split; [reflexivity |].
    split; [exact H1 | exact H2].
  - destruct (Init_validates_then_sets_flag
                unreachableWorld new_connProducer [] testConf true)
      as (_ & _ & Hver & _).
    assert (N1 : ConnectionString
                   (decoded unreachableWorld new_connProducer testConf) <> "")
      by (vm_compute; discriminate).
    assert (N2 : Username
                   (decoded unreachableWorld new_connProducer testConf) <> "")
      by (vm_compute; discriminate).
    assert (N3 : Password
                   (decoded unreachableWorld new_connProducer testConf) <> "")
      by (vm_compute; discriminate).
    destruct (Hver (LibraryError "no route to host")
                   eq_refl N1 N2 N3 eq_refl eq_refl) as (H1 & H2).
    split; [reflexivity |]. split; [reflexivity |].
    split; [exact H1 | exact H2].
Defined.

(** ** Close *)

Lemma set_cluster_None_id c : cluster c = None -> set_cluster c None = c.
Proof. destruct c; simpl; intros ->; reflexivity. Qed.

Example Close_fails :
  Close closeFailsWorld connectedProducer connectedTrace
  = (Some (LibraryError "close failed"), connectedProducer,
     connectedTrace ++ [EvClose cluster0]).
Proof. vm_compute. reflexivity. Qed.

(** C3, as the specification words it, fails: when the cluster's own
    close reports an error, [Close] returns it and the cached reference
    is still there. *)
Lemma close_error_keeps_cached :
  ~ close_always_clears closeFailsWorld connectedProducer connectedTrace.
Proof. unfold close_always_clears. vm_compute. discriminate. Qed.

(** C3 (amended): [Close] closes the cached connection if there is one.
    With nothing cached it is a no-op that returns ok.  With a connection
    cached it issues one close call on it; when that call succeeds
    [Close] returns ok and the cached reference is nil, and when it fails
    [Close] returns the failure and leaves the producer, cached reference
    included, as it was.  So the cached reference is nil after every
    [Close] that returns ok. *)
Theorem Close_clears_unless_close_fails w c tr :
  (cluster c = None -> Close w c tr = (None, c, tr))
  /\ (forall cl,
        cluster c = Some cl ->
        (Close w c tr).2 = tr ++ [EvClose cl]
        /\ match cluster_Close w tr cl with
           | None =>
             (Close w c tr).1 = (None, set_cluster c None)
           | Some err =>
             (Close w c tr).1 = (Some err, c)
             /\ cluster (Close w c tr).1.2 = Some cl
           end)
  /\ ((Close w c tr).1.1 = None -> cluster (Close w c tr).1.2 = None).
Proof.
  unfold Close. split; [| split].
  - intros H. rewrite H. rewrite set_cluster_None_id by exact H. reflexivity.
  - intros cl H. rewrite H.
    destruct (cluster_Close w tr cl); simpl; auto.
  - destruct (cluster c) as [cl |]; [| reflexivity].
    destruct (cluster_Close w tr cl); simpl; [discriminate | reflexivity].
Qed.

Lemma Close_clears_unless_close_fails_witness :
  cluster connectedProducer = Some cluster0
  /\ (Close demoWorld connectedProducer connectedTrace).2
     = connectedTrace ++ [EvClose cluster0]
  /\ (Close demoWorld connectedProducer connectedTrace).1
     = (None, set_cluster connectedProducer None)
  /\ cluster (Close closeFailsWorld connectedProducer connectedTrace).1.2
     = Some cluster0
  /\ Close demoWorld new_connProducer [] = (None, new_connProducer, []).
Proof.
  destruct (Close_clears_unless_close_fails
              demoWorld connectedProducer connectedTrace) as (_ & Hsome & _).
  destruct (Hsome cluster0 eq_refl) as (Htr & Hok).
  destruct (Close_clears_unless_close_fails
              closeFailsWorld connectedProducer connectedTrace) as (_ & Hsome' & _).
  destruct (Hsome' cluster0 eq_refl) as (_ & Hfail).
  destruct (Close_clears_unless_close_fails demoWorld new_connProducer [])
    as (Hnone & _).
  split; [reflexivity |].
  split; [exact Htr |].
  split; [exact Hok |].
  split; [exact (proj2 Hfail) |].
  exact (Hnone eq_refl).
Defined.

(** ** upsertUser *)

Lemma upsertUser_rejected w m s u p tr e :
  rejected_statement w s e -> upsertUser w m s u p tr = (Err e, tr).
Proof.
  unfold upsertUser.
  intros [(cause & Hun & ->) | (st & Hun & Hroles & ->)]; rewrite Hun.
  - reflexivity.
  - rewrite Hroles. reflexivity.
Qed.

Lemma upsertUser_accepted w m s u p tr st :
  json_Unmarshal w s = Ok st ->
  Roles st <> [] ->
  let settings := mkUserSettings u p (ToGocbUserRoles (Roles st)) in
  upsertUser w m s u p tr
  = (match manager_UpsertUser w tr m authDomain u settings with
     | Some err => Err (ErrorsWrap err "error when upserting user")
     | None => Ok (u, p)
     end,
     tr ++ [EvUpsertUser m authDomain u settings]).
Proof.
  intros Hun Hroles. unfold upsertUser. rewrite Hun.
  destruct (Roles st) as [| r rs] eqn:E; [congruence |]. simpl.
  destruct (manager_UpsertUser _ _ _ _ _ _); reflexivity.
Qed.

(** A successful upsert hands back the credential it was given. *)
Lemma upsertUser_Ok w m s u p tr u' p' tr' :
  upsertUser w m s u p tr = (Ok (u', p'), tr') -> u' = u /\ p' = p.
Proof.
  unfold upsertUser. case_oracles; intros H; inversion H; auto.
Qed.

(** ** CreateUser and SetCredentials, step by step *)

Lemma nonempty_length {A} (l : list A) :
  l <> [] -> (length l =? 0)%nat = false.
Proof. destruct l; [congruence | reflexivity]. Qed.

Lemma CreateUser_Connection_fails w c tr st cfg exp e p tr1 :
  Creation (dbutil_StatementCompatibilityHelper w st) <> [] ->
  Connection w (producer c) tr = (Err e, p, tr1) ->
  CreateUser w c tr st cfg exp = (Err e, set_producer c p, tr1).
Proof.
  intros Hne Hconn. unfold CreateUser.
  rewrite (nonempty_length _ Hne), Hconn. reflexivity.
Qed.

(** The upsert step of [CreateUser]: the connection is acquired and both
    credentials are generated. *)
Lemma CreateUser_upsert_step w c tr st cfg exp cl p tr1 u pw :
  Creation (dbutil_StatementCompatibilityHelper w st) <> [] ->
  Connection w (producer c) tr = (Ok cl, p, tr1) ->
  GenerateUsername (creds c) tr1 cfg = Ok u ->
  GeneratePassword (creds c) (tr1 ++ [EvGenerateUsername cfg]) = Ok pw ->
  CreateUser w c tr st cfg exp
  = let '(r, tr3) :=
      upsertUser w (clusterManager p)
                 (index0 (Creation (dbutil_StatementCompatibilityHelper w st)))
                 u pw
                 ((tr1 ++ [EvGenerateUsername cfg]) ++ [EvGeneratePassword]) in
    (r, set_producer c p, tr3).
Proof.
  intros Hne Hconn Hu Hp. unfold CreateUser.
  rewrite (nonempty_length _ Hne), Hconn. simpl. rewrite Hu, Hp. reflexivity.
Qed.

(** The upsert step of [SetCredentials]: the connection is acquired. *)
Lemma SetCredentials_upsert_step w c tr st sc cl p tr1 :
  Creation (dbutil_StatementCompatibilityHelper w st) <> [] ->
  Connection w (producer c) tr = (Ok cl, p, tr1) ->
  SetCredentials w c tr st sc
  = let '(r, tr2) :=
      upsertUser w (clusterManager p)
                 (index0 (Creation (dbutil_StatementCompatibilityHelper w st)))
                 (suUsername sc) (suPassword sc) tr1 in
    (r, set_producer c p, tr2).
Proof.
  intros Hne Hconn. unfold SetCredentials.
  rewrite (nonempty_length _ Hne), Hconn. reflexivity.
Qed.

(** The manager handed to the upsert step is the one the acquire of the
    same call derived: it is never nil. *)
Lemma Connection_Ok_manager w c tr cl p tr1 :
  Connection w c tr = (Ok cl, p, tr1) ->
  clusterManager p = Some (Manager cl (Username c) (Password c)).
Proof.
  intros H. apply Connection_Ok_state in H. destruct H as [-> _]. reflexivity.
Qed.

Lemma upsert_calls_snoc_other tr e :
  is_upsert e = false -> upsert_calls (tr ++ [e]) = upsert_calls tr.
Proof.
  intros H. rewrite upsert_calls_app. unfold upsert_calls at 2. simpl.
  rewrite H. apply app_nil_r.
Qed.

(** With a rejected first statement, [CreateUser] fails and the trace
    gains no upsert call, whatever the earlier steps do. *)
Lemma CreateUser_rejected w c tr st cfg exp s rest e :
  Creation (dbutil_StatementCompatibilityHelper w st) = s :: rest ->
  rejected_statement w s e ->
  is_Err (CreateUser w c tr st cfg exp).1.1 = true
  /\ upsert_calls (CreateUser w c tr st cfg exp).2 = upsert_calls tr.
Proof.
  intros Hs Hrej. unfold CreateUser. rewrite Hs. simpl.
  pose proof (Connection_upsert_calls w (producer c) tr) as Hu.
  destruct (Connection w (producer c) tr) as [[[cl | e0] p] tr1]; simpl in *;
    [| auto].
  destruct (GenerateUsername (creds c) tr1 cfg) as [u | e1]; simpl.
  2: { rewrite upsert_calls_snoc_other by reflexivity. auto. }
  destruct (GeneratePassword (creds c) _) as [pw | e2]; simpl.
  2: { rewrite !upsert_calls_snoc_other by reflexivity. auto. }
  unfold index0. simpl.
  rewrite (upsertUser_rejected _ _ _ _ _ _ _ Hrej). simpl.
  rewrite !upsert_calls_snoc_other by reflexivity. auto.
Qed.

Lemma SetCredentials_rejected w c tr st sc s rest e :
  Creation (dbutil_StatementCompatibilityHelper w st) = s :: rest ->
  rejected_statement w s e ->
  is_Err (SetCredentials w c tr st sc).1.1 = true
  /\ upsert_calls (SetCredentials w c tr st sc).2 = upsert_calls tr.
Proof.
  intros Hs Hrej. unfold SetCredentials. rewrite Hs. simpl.
  pose proof (Connection_upsert_calls w (producer c) tr) as Hu.
  destruct (Connection w (producer c) tr) as [[[cl | e0] p] tr1]; simpl in *;
    [| auto].
  unfold index0. simpl.
  rewrite (upsertUser_rejected _ _ _ _ _ _ _ Hrej). simpl. auto.
Qed.

(** C4: a creation statement that is malformed JSON, or that decodes to
    zero roles, makes [upsertUser] fail with the parse error, respectively
    the no-role error, without calling the upsert primitive.  So
    [CreateUser] and [SetCredentials] on such a statement fail in every
    state and world and add no upsert call to the trace; and whenever they
    get as far as the statement (the connection acquired and, for
    [CreateUser], the credentials generated) the error they return is that
    parse or no-role error. *)
Theorem rejected_statement_never_upserts w s e :
  rejected_statement w s e ->
  (forall m u p tr, upsertUser w m s u p tr = (Err e, tr))
  /\ (forall c tr st rest,
        Creation (dbutil_StatementCompatibilityHelper w st) = s :: rest ->
        (forall cfg exp,
            is_Err (CreateUser w c tr st cfg exp).1.1 = true
            /\ upsert_calls (CreateUser w c tr st cfg exp).2 = upsert_calls tr
            /\ (forall cl p tr1 u pw,
                   Connection w (producer c) tr = (Ok cl, p, tr1) ->
                   GenerateUsername (creds c) tr1 cfg = Ok u ->
                   GeneratePassword (creds c) (tr1 ++ [EvGenerateUsername cfg])
                     = Ok pw ->
                   CreateUser w c tr st cfg exp
                   = (Err e, set_producer c p,
                      (tr1 ++ [EvGenerateUsername cfg]) ++ [EvGeneratePassword])))
        /\ (forall sc,
            is_Err (SetCredentials w c tr st sc).1.1 = true
            /\ upsert_calls (SetCredentials w c tr st sc).2 = upsert_calls tr
            /\ (forall cl p tr1,
                   Connection w (producer c) tr = (Ok cl, p, tr1) ->
                   SetCredentials w c tr st sc
                   = (Err e, set_producer c p, tr1)))).
Proof.
  intros Hrej. split.
  - intros m u p tr. apply upsertUser_rejected, Hrej.
  - intros c tr st rest Hs.
    assert (Hne : Creation (dbutil_StatementCompatibilityHelper w st) <> [])
      by (rewrite Hs; discriminate).
    split.
    + intros cfg exp.
      destruct (CreateUser_rejected w c tr st cfg exp s rest e Hs Hrej)
        as [Herr Hup].
      split; [exact Herr |]. split; [exact Hup |].
      intros cl p tr1 u pw Hconn Hu Hp.
      rewrite (CreateUser_upsert_step w c tr st cfg exp cl p tr1 u pw
                 Hne Hconn Hu Hp).
      rewrite Hs. unfold index0. simpl.
      rewrite (upsertUser_rejected _ _ _ _ _ _ _ Hrej). reflexivity.
    + intros sc.
      destruct (SetCredentials_rejected w c tr st sc s rest e Hs Hrej)
        as [Herr Hup].
      split; [exact Herr |]. split; [exact Hup |].
      intros cl p tr1 Hconn.
      rewrite (SetCredentials_upsert_step w c tr st sc cl p tr1 Hne Hconn).
      rewrite Hs. unfold index0. simpl.
      rewrite (upsertUser_rejected _ _ _ _ _ _ _ Hrej). reflexivity.
Qed.

Lemma rejected_statement_never_upserts_witness :
  rejected_statement demoWorld noRolesStatement noRoleError
  /\ rejected_statement demoWorld malformedStatement parseError
  /\ upsertUser demoWorld None noRolesStatement "u" "p" [] = (Err noRoleError, [])
  /\ (CreateUser demoWorld connectedCouchbase connectedTrace
                 (mkStatements [noRolesStatement]) testUsernameConfig 0).1.1
     = Err noRoleError
  /\ (SetCredentials demoWorld connectedCouchbase connectedTrace
                     (mkStatements [malformedStatement])
                     (mkStaticUserConfig "test-user" "test-password")).1.1
     = Err parseError.
Proof.
  assert (R1 : rejected_statement demoWorld noRolesStatement noRoleError).
  { right. exists (mkCbStatement []). repeat split; reflexivity. }
  assert (R2 : rejected_statement demoWorld malformedStatement parseError).
  { left. exists (LibraryError "invalid character in creation statement").
    split; reflexivity. }
  split; [exact R1 |]. split; [exact R2 |].
  destruct (rejected_statement_never_upserts
              demoWorld noRolesStatement noRoleError R1) as [Hup Hops].
  destruct (rejected_statement_never_upserts
              demoWorld malformedStatement parseError R2) as [_ Hops'].
  split; [apply Hup |].
  split.
  - destruct (Hops connectedCouchbase connectedTrace
                   (mkStatements [noRolesStatement]) [] eq_refl) as [Hc _].
    destruct (Hc testUsernameConfig 0) as (_ & _ & Hc3).
    erewrite Hc3; reflexivity.
  - destruct (Hops' connectedCouchbase connectedTrace
                    (mkStatements [malformedStatement]) [] eq_refl) as [_ Hs].
    destruct (Hs (mkStaticUserConfig "test-user" "test-password"))
      as (_ & _ & Hs3).
    erewrite Hs3; reflexivity.
Defined.

(** ** The empty statement list *)

(** C5: when the creation-statement list (as the SDK's compatibility
    helper hands it over) is empty, [CreateUser] and [SetCredentials] fail
    with the empty-statement error at once: the producer is as it was and
    the trace is as it was, so no connection, credential generation or
    upsert call was made. *)
Theorem empty_creation_fails_before_acquire w c tr st :
  Creation (dbutil_StatementCompatibilityHelper w st) = [] ->
  (forall cfg exp,
      CreateUser w c tr st cfg exp = (Err ErrEmptyCreationStatement, c, tr))
  /\ (forall sc,
      SetCredentials w c tr st sc = (Err ErrEmptyCreationStatement, c, tr)).
Proof.
  intros H. split; intros; [unfold CreateUser | unfold SetCredentials];
    rewrite H; reflexivity.
Qed.

Lemma empty_creation_fails_before_acquire_witness :
  Creation (dbutil_StatementCompatibilityHelper demoWorld (mkStatements [])) = []
  /\ CreateUser demoWorld connectedCouchbase connectedTrace (mkStatements [])
                testUsernameConfig 0
     = (Err ErrEmptyCreationStatement, connectedCouchbase, connectedTrace)
  /\ SetCredentials demoWorld connectedCouchbase connectedTrace (mkStatements [])
                    (mkStaticUserConfig "test-user" "test-password")
     = (Err ErrEmptyCreationStatement, connectedCouchbase, connectedTrace).
Proof.
  split; [reflexivity |].
  split;
    apply (empty_creation_fails_before_acquire
             demoWorld connectedCouchbase connectedTrace (mkStatements []));
    reflexivity.
Defined.

(** ** The roles of an upsert *)

Lemma ToGocbUserRoles_loop roles acc :
  fold_left (fun userRoles r => userRoles ++ [mkUserRole (Role r) (BucketName r)])
            roles acc
  = acc ++ List.map toUserRole roles.
Proof.
  revert acc. induction roles as [| r roles IH]; intros acc; simpl.
  - symmetry. apply app_nil_r.
  - rewrite IH. rewrite <- app_assoc. reflexivity.
Qed.

Lemma ToGocbUserRoles_map roles :
  ToGocbUserRoles roles = List.map toUserRole roles.
Proof. unfold ToGocbUserRoles. apply ToGocbUserRoles_loop. Qed.

Lemma ToGocbUserRoles_length roles :
  length (ToGocbUserRoles roles) = length roles.
Proof. rewrite ToGocbUserRoles_map. apply List.length_map. Qed.

Lemma ToGocbUserRoles_nth roles i :
  nth_error (ToGocbUserRoles roles) i
  = match nth_error roles i with
    | Some r => Some (mkUserRole (Role r) (BucketName r))
    | None => None
    end.
Proof.
  rewrite ToGocbUserRoles_map. rewrite List.nth_error_map.
  destruct (nth_error roles i); reflexivity.
Qed.

(** C6: when [CreateUser] or [SetCredentials] reaches the upsert step,
    the call adds exactly one upsert to the trace, made on the manager of
    the connection just acquired, in the fixed authentication domain, for
    the username and password at hand, and its role list is the parsed
    role list of the first creation statement: of the same length, and at
    every index the entry with the role-name and resource-scope of the
    parsed role at that index. *)
Theorem upsert_roles_are_parsed_roles w c tr st s rest stmt :
  Creation (dbutil_StatementCompatibilityHelper w st) = s :: rest ->
  json_Unmarshal w s = Ok stmt ->
  Roles stmt <> [] ->
  (length (ToGocbUserRoles (Roles stmt)) = length (Roles stmt)
   /\ forall i,
       nth_error (ToGocbUserRoles (Roles stmt)) i
       = match nth_error (Roles stmt) i with
         | Some r => Some (mkUserRole (Role r) (BucketName r))
         | None => None
         end)
  /\ (forall cfg exp cl p tr1 u pw,
        Connection w (producer c) tr = (Ok cl, p, tr1) ->
        GenerateUsername (creds c) tr1 cfg = Ok u ->
        GeneratePassword (creds c) (tr1 ++ [EvGenerateUsername cfg]) = Ok pw ->
        upsert_calls (CreateUser w c tr st cfg exp).2
        = upsert_calls tr
          ++ [EvUpsertUser
                (Some (Manager cl (Username (producer c)) (Password (producer c))))
                authDomain u
                (mkUserSettings u pw (ToGocbUserRoles (Roles stmt)))])
  /\ (forall sc cl p tr1,
        Connection w (producer c) tr = (Ok cl, p, tr1) ->
        upsert_calls (SetCredentials w c tr st sc).2
        = upsert_calls tr
          ++ [EvUpsertUser
                (Some (Manager cl (Username (producer c)) (Password (producer c))))
                authDomain (suUsername sc)
                (mkUserSettings (suUsername sc) (suPassword sc)
                                (ToGocbUserRoles (Roles stmt)))]).
Proof.
  intros Hs Hun Hroles.
  assert (Hne : Creation (dbutil_StatementCompatibilityHelper w st) <> [])
    by (rewrite Hs; discriminate).
  split; [split; [apply ToGocbUserRoles_length | apply ToGocbUserRoles_nth] |].
  split.
  - intros cfg exp cl p tr1 u pw Hconn Hu Hp.
    rewrite (CreateUser_upsert_step w c tr st cfg exp cl p tr1 u pw
               Hne Hconn Hu Hp).
    rewrite Hs. unfold index0. simpl.
    rewrite (upsertUser_accepted w _ s u pw _ stmt Hun Hroles). simpl.
    rewrite (Connection_Ok_manager _ _ _ _ _ _ Hconn).
    pose proof (Connection_upsert_calls w (producer c) tr) as Hup.
    rewrite Hconn in Hup. simpl in Hup.
    rewrite upsert_calls_app, !upsert_calls_snoc_other by reflexivity.
    rewrite Hup. reflexivity.
  - intros sc cl p tr1 Hconn.
    rewrite (SetCredentials_upsert_step w c tr st sc cl p tr1 Hne Hconn).
    rewrite Hs. unfold index0. simpl.
    rewrite (upsertUser_accepted w _ s _ _ _ stmt Hun Hroles). simpl.
    rewrite (Connection_Ok_manager _ _ _ _ _ _ Hconn).
    pose proof (Connection_upsert_calls w (producer c) tr) as Hup.
    rewrite Hconn in Hup. simpl in Hup.
    rewrite upsert_calls_app. rewrite Hup. reflexivity.
Qed.

Lemma upsert_roles_are_parsed_roles_witness :
  Creation (dbutil_StatementCompatibilityHelper
              demoWorld (mkStatements [testStatement])) = [testStatement]
  /\ json_Unmarshal demoWorld testStatement
     = Ok (mkCbStatement [mkCbRole "bucket_full_access" "Test"])
  /\ upsert_calls
       (SetCredentials demoWorld connectedCouchbase connectedTrace
                       (mkStatements [testStatement])
                       (mkStaticUserConfig "test-user" "test-password")).2
     = [EvUpsertUser
          (Some (Manager (mkCluster 3 30 30) "admin" "password"))
          "local" "test-user"
          (mkUserSettings "test-user" "test-password"
                          [mkUserRole "bucket_full_access" "Test"])].
Proof.
  split; [reflexivity |]. split; [reflexivity |].
  destruct (upsert_roles_are_parsed_roles
              demoWorld connectedCouchbase connectedTrace
              (mkStatements [testStatement]) testStatement []
              (mkCbStatement [mkCbRole "bucket_full_access" "Test"])
              eq_refl eq_refl) as (_ & _ & Hset).
  { discriminate. }
  erewrite Hset; reflexivity.
Defined.

(** ** Renewal and root rotation *)

(** C7: [RenewUser] returns nil for every statements, username and
    expiration, in every state and world (so also for a username that was
    revoked before), and contacts nothing: producer and trace are as they
    were. *)
Theorem RenewUser_always_succeeds w c tr st username expiration :
  RenewUser w c tr st username expiration = (None, c, tr)
  /\ (forall st0,
        RenewUser w (RevokeUser w c tr st0 username).1.2
                  (RevokeUser w c tr st0 username).2 st username expiration
        = (None, (RevokeUser w c tr st0 username).1.2,
           (RevokeUser w c tr st0 username).2)).
Proof. split; reflexivity. Qed.

(** C8: [RotateRootCredentials] returns the not-implemented error and no
    configuration for every input, and leaves the plugin, with its stored
    endpoint, admin username, admin password, resource-scope and
    initialized flag, and the trace as they were. *)
Theorem RotateRootCredentials_unsupported w c tr statements :
  (RotateRootCredentials w c tr statements).1.1
  = Err (ErrorsNew
           "root credential rotation is not currently implemented in couchbase")
  /\ (RotateRootCredentials w c tr statements).1.2 = c
  /\ configuration (producer (RotateRootCredentials w c tr statements).1.2)
     = configuration (producer c)
  /\ (RotateRootCredentials w c tr statements).2 = tr.
Proof. repeat split. Qed.

(** ** One statement per call *)

(** C10: [CreateUser] and [SetCredentials] read only the first entry of
    the creation-statement list: on two lists that are non-empty and
    agree on their first entry, the calls, from the same state, trace and
    other arguments, return the same results, leave the same plugin state
    and make the same calls. *)
Theorem only_first_statement_is_read w c tr st1 st2 s rest1 rest2 :
  Creation (dbutil_StatementCompatibilityHelper w st1) = s :: rest1 ->
  Creation (dbutil_StatementCompatibilityHelper w st2) = s :: rest2 ->
  (forall cfg exp,
      CreateUser w c tr st1 cfg exp = CreateUser w c tr st2 cfg exp)
  /\ (forall sc, SetCredentials w c tr st1 sc = SetCredentials w c tr st2 sc).
Proof.
  intros H1 H2. split; intros; [unfold CreateUser | unfold SetCredentials];
    rewrite H1, H2; reflexivity.
Qed.

Lemma only_first_statement_is_read_witness :
  CreateUser demoWorld connectedCouchbase connectedTrace
             (mkStatements [testStatement; malformedStatement])
             testUsernameConfig 0
  = CreateUser demoWorld connectedCouchbase connectedTrace
               (mkStatements [testStatement; noRolesStatement; testStatement])
               testUsernameConfig 0.
Proof.
  apply (only_first_statement_is_read
           demoWorld connectedCouchbase connectedTrace
           (mkStatements [testStatement; malformedStatement])
           (mkStatements [testStatement; noRolesStatement; testStatement])
           testStatement [malformedStatement] [noRolesStatement; testStatement]);
    reflexivity.
Defined.

(** ** Generated usernames *)

Lemma truncate_length n s : (String.length (truncate n s) <= n)%nat.
Proof.
  revert s. induction n as [| n IH]; intros s; simpl; [lia |].
  destruct s as [| a s]; simpl; [lia |]. specialize (IH s). lia.
Qed.

Lemma truncate_short n s :
  (String.length s <= n)%nat -> truncate n s = s.
Proof.
  revert s. induction n as [| n IH]; intros [| a s]; simpl; intros H;
    try reflexivity; try lia.
  rewrite IH by lia. reflexivity.
Qed.

(** A truncated fragment is the beginning of the name it was cut from. *)
Lemma truncate_prefix n s :
  exists rest, s = String.append (truncate n s) rest.
Proof.
  revert s. induction n as [| n IH]; intros s; simpl.
  - exists s. reflexivity.
  - destruct s as [| a s]; [exists EmptyString; reflexivity |].
    destruct (IH s) as [rest Hrest]. exists rest.
    change (String a s = String a (String.append (truncate n s) rest)).
    rewrite <- Hrest. reflexivity.
Qed.

Lemma length_append s1 s2 :
  String.length (String.append s1 s2) = (String.length s1 + String.length s2)%nat.
Proof.
  induction s1 as [| a s1 IH]; [reflexivity |].
  change (S (String.length (String.append s1 s2))
          = S (String.length s1 + String.length s2)).
  rewrite IH. reflexivity.
Qed.

(** The username of a successful [CreateUser] is the one the credentials
    producer generated during the call. *)
Lemma CreateUser_Ok_username w c tr st cfg exp u pw c' tr' :
  CreateUser w c tr st cfg exp = (Ok (u, pw), c', tr') ->
  exists tr1, GenerateUsername (creds c) tr1 cfg = Ok u.
Proof.
  unfold CreateUser.
  destruct (length _ =? 0)%nat; [discriminate |].
  destruct (Connection w (producer c) tr) as [[[cl | e0] p] tr1];
    [| discriminate].
  simpl.
  destruct (GenerateUsername (creds c) tr1 cfg) as [u0 | e1] eqn:Hu;
    [| discriminate].
  destruct (GeneratePassword (creds c) _) as [pw0 | e2]; [| discriminate].
  destruct (upsertUser _ _ _ _ _ _) as [r tr3] eqn:Hup.
  intros H. inversion H; subst.
  apply upsertUser_Ok in Hup. destruct Hup as [-> _].
  exists tr1. exact Hu.
Qed.

(** No operation replaces the credentials producer [new] installed. *)
Lemma reachable_creds w c tr : reachable w c tr -> creds c = creds (new w).
Proof.
  induction 1 as [| c tr conf verify _ IH | c tr _ IH | c tr st cfg exp _ IH
                  | c tr st sc _ IH | c tr st username exp _ IH
                  | c tr st username _ IH | c tr statements _ IH];
    try exact IH; try reflexivity.
  - unfold CreateUser. case_oracles; simpl; exact IH.
  - unfold SetCredentials. case_oracles; simpl; exact IH.
  - unfold RevokeUser. case_oracles; simpl; exact IH.
Qed.

(** C9: in every state of a plugin built by [new], every username that
    [CreateUser] returns is at most 100 characters long, and is the
    display name cut to its first 15 characters at most, the separator
    [_], and the role name cut to its first 15 characters at most. *)
Theorem CreateUser_username_shape w c tr st cfg exp u pw c' tr' :
  reachable w c tr ->
  CreateUser w c tr st cfg exp = (Ok (u, pw), c', tr') ->
  (String.length u <= 100)%nat
  /\ exists displayName roleName,
      u = String.append displayName (String.append "_" roleName)
      /\ (String.length displayName <= 15)%nat
      /\ (String.length roleName <= 15)%nat
      /\ (exists rest, DisplayName cfg = String.append displayName rest)
      /\ (exists rest, RoleName cfg = String.append roleName rest).
Proof.
  intros Hreach Hcreate.
  pose proof (reachable_creds w c tr Hreach) as Hcreds.
  destruct (CreateUser_Ok_username _ _ _ _ _ _ _ _ _ _ Hcreate) as [tr1 Hu].
  rewrite Hcreds in Hu.
  change (Ok (truncate 100
                (String.append (truncate 15 (DisplayName cfg))
                   (String.append "_" (truncate 15 (RoleName cfg)))))
          = Ok u) in Hu.
  pose proof (truncate_length 15 (DisplayName cfg)) as Hd.
  pose proof (truncate_length 15 (RoleName cfg)) as Hr.
  set (d := truncate 15 (DisplayName cfg)) in *.
  set (r := truncate 15 (RoleName cfg)) in *.
  assert (Hlen : (String.length (String.append d (String.append "_" r)) <= 31)%nat).
  { rewrite !length_append. simpl. lia. }
  rewrite truncate_short in Hu by lia.
  inversion Hu; subst u.
  split; [lia |].
  exists d, r. repeat split; try assumption.
  - apply truncate_prefix.
  - apply truncate_prefix.
Qed.

Lemma CreateUser_username_shape_witness :
  reachable demoWorld connectedCouchbase connectedTrace
  /\ (CreateUser demoWorld connectedCouchbase connectedTrace
                 (mkStatements [testStatement]) testUsernameConfig 0).1.1
     = Ok ("test-user_test-role", "A1a-0123456789abcdef")
  /\ (String.length "test-user_test-role" <= 100)%nat.
Proof.
  assert (R : reachable demoWorld connectedCouchbase connectedTrace)
    by exact (reach_Init demoWorld (new demoWorld) [] testConf true
                         (reach_new demoWorld)).
  split; [exact R |]. split; [reflexivity |].
  eapply (CreateUser_username_shape
            demoWorld connectedCouchbase connectedTrace
            (mkStatements [testStatement]) testUsernameConfig 0
            "test-user_test-role" "A1a-0123456789abcdef").
  - exact R.
  - reflexivity.
Defined.

(** * Further properties of the code *)

(** ** Traces that only grow *)

Lemma extends_by_refl P tr : extends_by P tr tr.
Proof. exists []. split; [symmetry; apply app_nil_r | reflexivity]. Qed.

Lemma extends_by_snoc P tr tr' e :
  extends_by P tr tr' -> P e = true -> extends_by P tr (tr' ++ [e]).
Proof.
  intros (evs & -> & Hall) He. exists (evs ++ [e]). split.
  - symmetry. apply app_assoc.
  - rewrite forallb_app, Hall. simpl. rewrite He. reflexivity.
Qed.

Lemma extends_by_trans P tr1 tr2 tr3 :
  extends_by P tr1 tr2 -> extends_by P tr2 tr3 -> extends_by P tr1 tr3.
Proof.
  intros (e1 & -> & H1) (e2 & -> & H2). exists (e1 ++ e2). split.
  - symmetry. apply app_assoc.
  - rewrite forallb_app, H1, H2. reflexivity.
Qed.

Lemma extends_by_weaken (P Q : Event -> bool) tr tr' :
  (forall e, P e = true -> Q e = true) ->
  extends_by P tr tr' -> extends_by Q tr tr'.
Proof.
  intros HPQ (evs & -> & Hall). exists evs. split; [reflexivity |].
  apply forallb_forall. intros e He.
  apply HPQ. rewrite forallb_forall in Hall. apply Hall, He.
Qed.

(** Calls of a kind the extension excludes are as many as before. *)
Lemma extends_by_filter (P Q : Event -> bool) tr tr' :
  (forall e, P e = true -> Q e = false) ->
  extends_by P tr tr' -> List.filter Q tr' = List.filter Q tr.
Proof.
  intros HPQ (evs & -> & Hall). rewrite List.filter_app.
  assert (E : List.filter Q evs = []).
  { clear tr. induction evs as [| e evs IH]; [reflexivity |].
    simpl in *. apply andb_prop in Hall. destruct Hall as [He Hall].
    rewrite (HPQ e He). apply IH, Hall. }
  rewrite E. apply app_nil_r.
Qed.

Lemma set_producer_id c : set_producer c (producer c) = c.
Proof. destruct c; reflexivity. Qed.

Lemma Connection_extends w c tr :
  extends_by is_connection_call tr (Connection w c tr).2.
Proof.
  unfold Connection. case_oracles; simpl;
    repeat (apply extends_by_snoc; [| reflexivity]); apply extends_by_refl.
Qed.

(** ** Before Init *)

(** X1: on a plugin whose flag is off, [CreateUser] and [SetCredentials]
    (given a statement) and [RevokeUser] fail with the not-initialized
    error, make no call and leave the plugin as it is. *)
Theorem operations_require_Init w c tr :
  Initialized (producer c) = false ->
  (forall st cfg exp,
      Creation (dbutil_StatementCompatibilityHelper w st) <> [] ->
      CreateUser w c tr st cfg exp = (Err ErrNotInitialized, c, tr))
  /\ (forall st sc,
      Creation (dbutil_StatementCompatibilityHelper w st) <> [] ->
      SetCredentials w c tr st sc = (Err ErrNotInitialized, c, tr))
  /\ (forall st username,
      RevokeUser w c tr st username = (Some ErrNotInitialized, c, tr)).
Proof.
  intros Hoff.
  pose proof (Connection_not_initialized w (producer c) tr Hoff) as Hconn.
  split; [| split].
  - intros st cfg exp Hne. unfold CreateUser.
    rewrite (nonempty_length _ Hne), Hconn, set_producer_id. reflexivity.
  - intros st sc Hne. unfold SetCredentials.
    rewrite (nonempty_length _ Hne), Hconn, set_producer_id. reflexivity.
  - intros st username. unfold RevokeUser.
    rewrite Hconn, set_producer_id. reflexivity.
Qed.

Lemma operations_require_Init_witness :
  Initialized (producer (new demoWorld)) = false
  /\ CreateUser demoWorld (new demoWorld) [] (mkStatements [testStatement])
                testUsernameConfig 0
     = (Err ErrNotInitialized, new demoWorld, [])
  /\ RevokeUser demoWorld (new demoWorld) [] (mkStatements []) "test-user"
     = (Some ErrNotInitialized, new demoWorld, []).
Proof.
  destruct (operations_require_Init demoWorld (new demoWorld) [] eq_refl)
    as (Hc & _ & Hr).
  split; [reflexivity |]. split.
  - apply Hc. discriminate.
  - apply Hr.
Defined.

(** ** The stages of an acquire *)



(** X3: an acquire that succeeds ran on a producer with the flag on,
    made exactly three calls, all answered without error: connect to the
    endpoint, authenticate the new cluster as the admin, open the bucket
    with an empty password.  The cluster it returns has both connect
    timeouts at 30 seconds; the producer caches it and the manager made
    from it with the admin credentials, and keeps every exported field. *)
Theorem Connection_success_calls w c tr cl c' tr' :
  Connection w c tr = (Ok cl, c', tr') ->
  Initialized c = true
  /\ cl = acquired tr
  /\ tr' = tr ++ acquire_calls c tr
  /\ cluster c' = Some cl
  /\ clusterManager c' = Some (Manager cl (Username c) (Password c))
  /\ stored c' = stored c.
Proof.
  unfold Connection, acquire_calls, acquired. simpl.
  destruct (Initialized c); simpl; [| discriminate].
  destruct (gocb_Connect w tr (ConnectionString c)); [discriminate |].
  destruct (cluster_Authenticate _ _ _ _ _); [discriminate |].
  destruct (cluster_OpenBucket _ _ _ _ _); [discriminate |].
  intros H; inversion H; subst. rewrite <- !app_assoc. repeat split.
Qed.

Lemma Connection_success_calls_witness :
  Connection demoWorld connectedProducer connectedTrace
  = (Ok (acquired connectedTrace),
     set_clusterManager
       (set_cluster connectedProducer (Some (acquired connectedTrace)))
       (Some (Manager (acquired connectedTrace) "admin" "password")),
     connectedTrace ++ acquire_calls connectedProducer connectedTrace)
  /\ Initialized connectedProducer = true.
Proof.
  split; [reflexivity |].
  eapply (Connection_success_calls demoWorld connectedProducer connectedTrace).
  reflexivity.
Defined.

(** ** What each operation may call *)

Lemma upsertUser_extends w m s u p tr :
  extends_by is_upsert tr (upsertUser w m s u p tr).2.
Proof.
  unfold upsertUser. case_oracles; simpl;
    repeat (apply extends_by_snoc; [| reflexivity]); apply extends_by_refl.
Qed.

Lemma Init_trace w c tr conf verify :
  (Init w c tr conf verify).2 = tr
  \/ (verify = true
      /\ (Init w c tr conf verify).2
         = (Connection w (set_Initialized (decoded w c conf) true) tr).2).
Proof.
  rewrite Init_unfold. cbv zeta.
  destruct (decode_error w c conf); [left; reflexivity |].
  destruct (_ =? 0)%nat; [left; reflexivity |].
  destruct (_ =? 0)%nat; [left; reflexivity |].
  destruct (_ =? 0)%nat; [left; reflexivity |].
  destruct verify; [| left; reflexivity].
  right. split; [reflexivity |].
  destruct (Connection w _ tr) as [[[cl | e] c'] tr']; reflexivity.
Qed.

Lemma Init_extends w c tr conf verify :
  extends_by is_connection_call tr (Init w c tr conf verify).2.
Proof.
  destruct (Init_trace w c tr conf verify) as [-> | [_ ->]];
    [apply extends_by_refl | apply Connection_extends].
Qed.

Lemma Close_extends w c tr : extends_by is_close tr (Close w c tr).2.
Proof.
  unfold Close. case_oracles; simpl;
    repeat (apply extends_by_snoc; [| reflexivity]); apply extends_by_refl.
Qed.

Lemma CreateUser_extends w c tr st cfg exp :
  extends_by (fun e => is_connection_call e || is_generate e || is_upsert e)
             tr (CreateUser w c tr st cfg exp).2.
Proof.
  pose proof (Connection_extends w (producer c) tr) as Hconn.
  unfold CreateUser.
  destruct (_ =? 0)%nat; [apply extends_by_refl |].
  assert (Hconn' :
            extends_by
              (fun e => is_connection_call e || is_generate e || is_upsert e)
              tr (Connection w (producer c) tr).2).
  { eapply extends_by_weaken; [| exact Hconn].
    intros e He. rewrite He. reflexivity. }
  destruct (Connection w (producer c) tr) as [[[cl | e0] p] tr1];
    simpl in *; [| exact Hconn'].
  destruct (GenerateUsername (creds c) tr1 cfg) as [u | e1]; simpl.
  2: { apply extends_by_snoc; [exact Hconn' | reflexivity]. }
  destruct (GeneratePassword (creds c) _) as [pw | e2]; simpl.
  2: { repeat (apply extends_by_snoc; [| reflexivity]). exact Hconn'. }
  pose proof (upsertUser_extends w (clusterManager p)
                (index0 (Creation (dbutil_StatementCompatibilityHelper w st)))
                u pw ((tr1 ++ [EvGenerateUsername cfg]) ++ [EvGeneratePassword]))
    as Hup.
  destruct (upsertUser _ _ _ _ _ _) as [r tr3]. simpl in *.
  apply (extends_by_trans _ _
           ((tr1 ++ [EvGenerateUsername cfg]) ++ [EvGeneratePassword])).
  - repeat (apply extends_by_snoc; [| reflexivity]). exact Hconn'.
  - eapply extends_by_weaken; [| exact Hup].
    intros e He. rewrite He. apply orb_true_r.
Qed.

Lemma SetCredentials_extends w c tr st sc :
  extends_by (fun e => is_connection_call e || is_upsert e)
             tr (SetCredentials w c tr st sc).2.
Proof.
  pose proof (Connection_extends w (producer c) tr) as Hconn.
  unfold SetCredentials.
  destruct (_ =? 0)%nat; [apply extends_by_refl |].
  assert (Hconn' :
            extends_by (fun e => is_connection_call e || is_upsert e)
                       tr (Connection w (producer c) tr).2).
  { eapply extends_by_weaken; [| exact Hconn].
    intros e He. rewrite He. reflexivity. }
  destruct (Connection w (producer c) tr) as [[[cl | e0] p] tr1];
    simpl in *; [| exact Hconn'].
  pose proof (upsertUser_extends w (clusterManager p)
                (index0 (Creation (dbutil_StatementCompatibilityHelper w st)))
                (suUsername sc) (suPassword sc) tr1) as Hup.
  destruct (upsertUser _ _ _ _ _ _) as [r tr2]. simpl in *.
  eapply extends_by_trans; [exact Hconn' |].
  eapply extends_by_weaken; [| exact Hup].
  intros e He. rewrite He. apply orb_true_r.
Qed.

Lemma RevokeUser_extends w c tr st username :
  extends_by (fun e => is_connection_call e || is_remove e)
             tr (RevokeUser w c tr st username).2.
Proof.
  pose proof (Connection_extends w (producer c) tr) as Hconn.
  unfold RevokeUser.
  assert (Hconn' :
            extends_by (fun e => is_connection_call e || is_remove e)
                       tr (Connection w (producer c) tr).2).
  { eapply extends_by_weaken; [| exact Hconn].
    intros e He. rewrite He. reflexivity. }
  destruct (Connection w (producer c) tr) as [[[cl | e0] p] tr1];
    simpl in *; [| exact Hconn'].
  apply extends_by_snoc; [exact Hconn' | reflexivity].
Qed.

(** X4: the calls an operation can add to the trace.  An acquire and
    [Init] only connect, authenticate and open a bucket; [Close] only
    closes; [CreateUser] only acquires, generates credentials and
    upserts; [SetCredentials] only acquires and upserts, it never
    generates a credential; [RevokeUser] only acquires and removes.  In
    particular no operation but [Close] ever closes a cluster, and
    creating or setting credentials never removes a user. *)
Theorem operation_footprints w c tr :
  extends_by is_connection_call tr (Connection w (producer c) tr).2
  /\ (forall conf verify,
        extends_by is_connection_call tr (Init w (producer c) tr conf verify).2)
  /\ extends_by is_close tr (Close w (producer c) tr).2
  /\ (forall st cfg exp,
        extends_by
          (fun e => is_connection_call e || is_generate e || is_upsert e)
          tr (CreateUser w c tr st cfg exp).2)
  /\ (forall st sc,
        extends_by (fun e => is_connection_call e || is_upsert e)
                   tr (SetCredentials w c tr st sc).2)
  /\ (forall st username,
        extends_by (fun e => is_connection_call e || is_remove e)
                   tr (RevokeUser w c tr st username).2).
Proof.
  split; [apply Connection_extends |].
  split; [intros; apply Init_extends |].
  split; [apply Close_extends |].
  split; [intros; apply CreateUser_extends |].
  split; [intros; apply SetCredentials_extends |].
  intros; apply RevokeUser_extends.
Qed.

(** ** Revocation *)

(** X5: [RevokeUser] first acquires.  When the acquire fails it returns
    that error and removes nothing.  When the acquire succeeds it makes
    one remove call, for the given username in the domain [local], on
    the manager of the cluster just acquired, and returns the answer of
    that call as it is: a rejection by the cluster (an unknown user, say)
    comes back unwrapped, and is not turned into a success. *)
Theorem RevokeUser_outcomes w c tr st username :
  (forall e p tr1,
      Connection w (producer c) tr = (Err e, p, tr1) ->
      RevokeUser w c tr st username = (Some e, c, tr1)
      /\ remove_calls tr1 = remove_calls tr)
  /\ (forall cl p tr1,
        Connection w (producer c) tr = (Ok cl, p, tr1) ->
        let m := Some (Manager cl (Username (producer c)) (Password (producer c))) in
        RevokeUser w c tr st username
        = (manager_RemoveUser w tr1 m authDomain username,
           set_producer c p,
           tr1 ++ [EvRemoveUser m authDomain username])
        /\ remove_calls (tr1 ++ [EvRemoveUser m authDomain username])
           = remove_calls tr ++ [EvRemoveUser m authDomain username]).
Proof.
  pose proof (Connection_extends w (producer c) tr) as Hext.
  assert (Hrem : remove_calls (Connection w (producer c) tr).2 = remove_calls tr).
  { apply (extends_by_filter is_connection_call); [| exact Hext].
    intros [] H; try discriminate H; reflexivity. }
  split.
  - intros e p tr1 Hconn. rewrite Hconn in Hrem. simpl in Hrem.
    split; [| exact Hrem].
    unfold RevokeUser. rewrite Hconn.
    apply Connection_Err_state in Hconn. subst p.
    rewrite set_producer_id. reflexivity.
  - intros cl p tr1 Hconn m. rewrite Hconn in Hrem. simpl in Hrem.
    split.
    + unfold RevokeUser. rewrite Hconn. simpl.
      rewrite (Connection_Ok_manager _ _ _ _ _ _ Hconn). reflexivity.
    + unfold remove_calls in *. rewrite List.filter_app, Hrem. reflexivity.
Qed.

Lemma RevokeUser_outcomes_witness :
  RevokeUser unreachableWorld connectedCouchbase connectedTrace
             (mkStatements []) "test-user"
  = (Some (LibraryError "no route to host"), connectedCouchbase,
     connectedTrace ++ [EvConnect "couchbase://localhost"])
  /\
  RevokeUser (worldWith None None None None (Some (LibraryError "Unknown user.")))
             connectedCouchbase connectedTrace (mkStatements []) "nonexistent"
  = (Some (LibraryError "Unknown user."),
     set_producer connectedCouchbase
       (set_clusterManager
          (set_cluster connectedProducer (Some (acquired connectedTrace)))
          (Some (Manager (acquired connectedTrace) "admin" "password"))),
     (connectedTrace ++ acquire_calls connectedProducer connectedTrace)
       ++ [EvRemoveUser (Some (Manager (acquired connectedTrace) "admin" "password"))
                        "local" "nonexistent"]).
Proof.
  destruct (RevokeUser_outcomes
              (worldWith None None None None (Some (LibraryError "Unknown user.")))
              connectedCouchbase connectedTrace (mkStatements []) "nonexistent")
    as [_ Hok].
  destruct (RevokeUser_outcomes unreachableWorld connectedCouchbase
              connectedTrace (mkStatements []) "test-user") as [Hfail _].
  split.
  { eapply Hfail. reflexivity. }
  apply (Hok (acquired connectedTrace)
             (set_clusterManager
                (set_cluster connectedProducer (Some (acquired connectedTrace)))
                (Some (Manager (acquired connectedTrace) "admin" "password")))
             (connectedTrace ++ acquire_calls connectedProducer connectedTrace)).
  reflexivity.
Defined.

(** ** What outlives a call *)

Lemma Connection_stored w c tr : stored (Connection w c tr).1.2 = stored c.
Proof.
  destruct (Connection w c tr) as [[[cl | e] c'] tr'] eqn:E; simpl.
  - apply Connection_Ok_state in E. destruct E as [-> _]. reflexivity.
  - apply Connection_Err_state in E. subst. reflexivity.
Qed.

(** The producer an operation of the plugin leaves is the one its
    acquire left, or the one it found when it did not get to acquire. *)
Lemma CreateUser_producer w c tr st cfg exp :
  producer (CreateUser w c tr st cfg exp).1.2 = producer c
  \/ producer (CreateUser w c tr st cfg exp).1.2
     = (Connection w (producer c) tr).1.2.
Proof.
  unfold CreateUser. destruct (_ =? 0)%nat; [left; reflexivity |]. right.
  destruct (Connection w (producer c) tr) as [[[cl | e0] p] tr1]; simpl;
    [| reflexivity].
  destruct (GenerateUsername _ _ _); [| reflexivity].
  destruct (GeneratePassword _ _); [| reflexivity].
  destruct (upsertUser _ _ _ _ _ _). reflexivity.
Qed.

Lemma SetCredentials_producer w c tr st sc :
  producer (SetCredentials w c tr st sc).1.2 = producer c
  \/ producer (SetCredentials w c tr st sc).1.2
     = (Connection w (producer c) tr).1.2.
Proof.
  unfold SetCredentials. destruct (_ =? 0)%nat; [left; reflexivity |]. right.
  destruct (Connection w (producer c) tr) as [[[cl | e0] p] tr1]; simpl;
    [| reflexivity].
  destruct (upsertUser _ _ _ _ _ _). reflexivity.
Qed.

Lemma RevokeUser_producer w c tr st username :
  producer (RevokeUser w c tr st username).1.2
  = (Connection w (producer c) tr).1.2.
Proof.
  unfold RevokeUser.
  destruct (Connection w (producer c) tr) as [[[cl | e0] p] tr1]; reflexivity.
Qed.

(** X6: the exported fields of the producer (endpoint, admin username,
    admin password, bucket, type, initialized flag, raw configuration)
    are written by [Init] alone: an acquire, [Close], [CreateUser],
    [SetCredentials] and [RevokeUser] leave every one of them as it was,
    whether they succeed or fail. *)
Theorem stored_fields_change_only_in_Init w c tr :
  stored (Connection w (producer c) tr).1.2 = stored (producer c)
  /\ stored (Close w (producer c) tr).1.2 = stored (producer c)
  /\ (forall st cfg exp,
        stored (producer (CreateUser w c tr st cfg exp).1.2) = stored (producer c))
  /\ (forall st sc,
        stored (producer (SetCredentials w c tr st sc).1.2) = stored (producer c))
  /\ (forall st username,
        stored (producer (RevokeUser w c tr st username).1.2)
        = stored (producer c)).
Proof.
  pose proof (Connection_stored w (producer c) tr) as Hconn.
  split; [exact Hconn |].
  split; [unfold Close; case_oracles; reflexivity |].
  split; [| split].
  - intros st cfg exp.
    destruct (CreateUser_producer w c tr st cfg exp) as [-> | ->];
      [reflexivity | exact Hconn].
  - intros st sc.
    destruct (SetCredentials_producer w c tr st sc) as [-> | ->];
      [reflexivity | exact Hconn].
  - intros st username. rewrite RevokeUser_producer. exact Hconn.
Qed.

(** ** Closing again *)

Lemma Close_cases w c tr :
  (cluster c = None /\ Close w c tr = (None, c, tr))
  \/ (exists cl,
        cluster c = Some cl /\ cluster_Close w tr cl = None
        /\ Close w c tr = (None, set_cluster c None, tr ++ [EvClose cl]))
  \/ (exists cl err,
        cluster c = Some cl /\ cluster_Close w tr cl = Some err
        /\ Close w c tr = (Some err, c, tr ++ [EvClose cl])).
Proof.
  unfold Close. destruct (cluster c) as [cl |] eqn:Hcl.
  - destruct (cluster_Close w tr cl) as [err |] eqn:Hclose.
    + right; right. exists cl, err. auto.
    + right; left. exists cl. auto.
  - left. split; [reflexivity |].
    rewrite set_cluster_None_id by exact Hcl. reflexivity.
Qed.

(** X7: [Close] never touches the manager, so after a close the producer
    still holds the manager of the cluster it closed.  A [Close] that
    returned ok can be repeated at no cost: the second call calls nothing
    and changes nothing.  A [Close] that returned an error can be
    retried: the second call closes the same cluster again. *)
Theorem Close_again w c tr :
  clusterManager (Close w c tr).1.2 = clusterManager c
  /\ ((Close w c tr).1.1 = None ->
      Close w (Close w c tr).1.2 (Close w c tr).2
      = (None, (Close w c tr).1.2, (Close w c tr).2))
  /\ (forall e,
        (Close w c tr).1.1 = Some e ->
        exists cl,
          cluster c = Some cl
          /\ (Close w c tr).2 = tr ++ [EvClose cl]
          /\ (Close w (Close w c tr).1.2 (Close w c tr).2).2
             = (tr ++ [EvClose cl]) ++ [EvClose cl]).
Proof.
  destruct (Close_cases w c tr)
    as [[Hcl E] | [(cl & Hcl & Hclose & E) | (cl & err & Hcl & Hclose & E)]];
    rewrite E; simpl.
  - split; [reflexivity |]. split; [| discriminate].
    intros _. unfold Close. rewrite Hcl.
    rewrite set_cluster_None_id by exact Hcl. reflexivity.
  - split; [reflexivity |]. split; [| discriminate].
    intros _. reflexivity.
  - split; [reflexivity |]. split; [discriminate |].
    intros e _. exists cl. split; [exact Hcl |]. split; [reflexivity |].
    unfold Close. rewrite Hcl.
    destruct (cluster_Close w (tr ++ [EvClose cl]) cl); reflexivity.
Qed.

Lemma Close_again_witness :
  (Close demoWorld connectedProducer connectedTrace).1.1 = None
  /\ Close demoWorld (Close demoWorld connectedProducer connectedTrace).1.2
           (Close demoWorld connectedProducer connectedTrace).2
     = (None, set_cluster connectedProducer None,
        connectedTrace ++ [EvClose cluster0])
  /\ (Close closeFailsWorld connectedProducer connectedTrace).1.1
     = Some (LibraryError "close failed")
  /\ exists cl,
      cluster connectedProducer = Some cl
      /\ (Close closeFailsWorld connectedProducer connectedTrace).2
         = connectedTrace ++ [EvClose cl]
      /\ (Close closeFailsWorld
                (Close closeFailsWorld connectedProducer connectedTrace).1.2
                (Close closeFailsWorld connectedProducer connectedTrace).2).2
         = (connectedTrace ++ [EvClose cl]) ++ [EvClose cl].
Proof.
  destruct (Close_again demoWorld connectedProducer connectedTrace)
    as (_ & Hok & _).
  destruct (Close_again closeFailsWorld connectedProducer connectedTrace)
    as (_ & _ & Herr).
  split; [reflexivity |].
  split; [exact (Hok eq_refl) |].
  split; [reflexivity |].
  exact (Herr (LibraryError "close failed") eq_refl).
Defined.

(** ** The cached cluster *)

Lemma cache_consistent_ext c1 c2 :
  cluster c2 = cluster c1 -> clusterManager c2 = clusterManager c1 ->
  cache_consistent c1 -> cache_consistent c2.
Proof.
  unfold cache_consistent. intros E1 E2 H cl Hcl.
  rewrite E1 in Hcl. rewrite E2. apply H, Hcl.
Qed.

Lemma cache_consistent_Connection w c tr :
  cache_consistent c -> cache_consistent (Connection w c tr).1.2.
Proof.
  intros Hc.
  destruct (Connection w c tr) as [[[cl | e] c'] tr'] eqn:E; simpl.
  - apply Connection_Ok_state in E. destruct E as [-> ->].
    intros cl' Hcl'. simpl in Hcl'. inversion Hcl'; subst. simpl.
    repeat split. eexists. split; reflexivity.
  - apply Connection_Err_state in E. subst. exact Hc.
Qed.

Lemma decoded_cache w c conf :
  cluster (decoded w c conf) = cluster c
  /\ clusterManager (decoded w c conf) = clusterManager c.
Proof.
  unfold decoded, WeakDecode.
  destruct (mapstructure_WeakDecode w conf (set_RawConfig c conf)) as [d err].
  split; reflexivity.
Qed.

Lemma Init_state w c tr conf verify :
  (Init w c tr conf verify).1.2 = decoded w c conf
  \/ (verify = false
      /\ (Init w c tr conf verify).1.2 = set_Initialized (decoded w c conf) true)
  \/ (verify = true
      /\ (Init w c tr conf verify).1.2
         = (Connection w (set_Initialized (decoded w c conf) true) tr).1.2).
Proof.
  rewrite Init_unfold. cbv zeta.
  destruct (decode_error w c conf); [left; reflexivity |].
  destruct (_ =? 0)%nat; [left; reflexivity |].
  destruct (_ =? 0)%nat; [left; reflexivity |].
  destruct (_ =? 0)%nat; [left; reflexivity |].
  destruct verify; [| right; left; split; reflexivity].
  right; right. split; [reflexivity |].
  destruct (Connection w _ tr) as [[[cl | e] c'] tr']; reflexivity.
Qed.

Lemma cache_consistent_Init w c tr conf verify :
  cache_consistent c -> cache_consistent (Init w c tr conf verify).1.2.
Proof.
  intros Hc. destruct (decoded_cache w c conf) as [E1 E2].
  assert (Hd : cache_consistent (decoded w c conf))
    by (eapply cache_consistent_ext; eauto).
  assert (Hd' : cache_consistent (set_Initialized (decoded w c conf) true))
    by (eapply cache_consistent_ext; [| | exact Hd]; reflexivity).
  destruct (Init_state w c tr conf verify) as [-> | [[_ ->] | [_ ->]]];
    [exact Hd | exact Hd' | apply cache_consistent_Connection, Hd'].
Qed.

Lemma cache_consistent_Close w c tr :
  cache_consistent c -> cache_consistent (Close w c tr).1.2.
Proof.
  intros Hc. unfold Close. case_oracles; simpl; try exact Hc;
    intros cl' Hcl'; discriminate Hcl'.
Qed.

(** X8: in every state of a plugin built by [new], a cached cluster has
    its connect timeout and its per-node connect timeout at 30 seconds,
    and the producer holds the manager that was derived from that very
    cluster: no sequence of calls leaves a cluster cached without its
    manager, or with a manager of another cluster. *)
Theorem cached_cluster_is_consistent w c tr :
  reachable w c tr -> cache_consistent (producer c).
Proof.
  induction 1 as [| c tr conf verify _ IH | c tr _ IH | c tr st cfg exp _ IH
                  | c tr st sc _ IH | c tr st username exp _ IH
                  | c tr st username _ IH | c tr statements _ IH].
  - intros cl Hcl. discriminate Hcl.
  - apply cache_consistent_Init, IH.
  - apply cache_consistent_Close, IH.
  - destruct (CreateUser_producer w c tr st cfg exp) as [-> | ->];
      [exact IH | apply cache_consistent_Connection, IH].
  - destruct (SetCredentials_producer w c tr st sc) as [-> | ->];
      [exact IH | apply cache_consistent_Connection, IH].
  - exact IH.
  - rewrite RevokeUser_producer. apply cache_consistent_Connection, IH.
  - exact IH.
Qed.

Lemma cached_cluster_is_consistent_witness :
  reachable demoWorld connectedCouchbase connectedTrace
  /\ cache_consistent (producer connectedCouchbase).
Proof.
  assert (R : reachable demoWorld connectedCouchbase connectedTrace)
    by exact (reach_Init demoWorld (new demoWorld) [] testConf true
                         (reach_new demoWorld)).
  split; [exact R |].
  exact (cached_cluster_is_consistent demoWorld connectedCouchbase
                                      connectedTrace R).
Defined.

(** ** Init, field by field *)

(** X9: [Init] reports the first thing that is wrong, in a fixed order.
    A decoding error is returned as it is and nothing is validated.
    Otherwise an empty endpoint is reported whatever the other fields
    are; an empty admin username is reported only when the endpoint is
    given; an empty admin password only when the two others are given.
    The resource-scope is not validated: an empty bucket is accepted. *)
Theorem Init_validation_order w c tr conf verify :
  (forall e,
      decode_error w c conf = Some e ->
      (Init w c tr conf verify).1.1 = Err e)
  /\ (decode_error w c conf = None ->
      ConnectionString (decoded w c conf) = "" ->
      (Init w c tr conf verify).1.1
      = Err (ErrorsNew "connection_string cannot be empty"))
  /\ (decode_error w c conf = None ->
      ConnectionString (decoded w c conf) <> "" ->
      Username (decoded w c conf) = "" ->
      (Init w c tr conf verify).1.1 = Err (ErrorsNew "username cannot be empty"))
  /\ (decode_error w c conf = None ->
      ConnectionString (decoded w c conf) <> "" ->
      Username (decoded w c conf) <> "" ->
      Password (decoded w c conf) = "" ->
      (Init w c tr conf verify).1.1 = Err (ErrorsNew "password cannot be empty"))
  /\ (decode_error w c conf = None ->
      ConnectionString (decoded w c conf) <> "" ->
      Username (decoded w c conf) <> "" ->
      Password (decoded w c conf) <> "" ->
      verify = false ->
      Init w c tr conf verify
      = (Ok conf, set_Initialized (decoded w c conf) true, tr)).
Proof.
  rewrite Init_unfold. cbv zeta.
  set (d := decoded w c conf).
  destruct (decode_error w c conf) as [derr |].
  { repeat split; try discriminate. intros e H; inversion H; reflexivity. }
  split; [discriminate |].
  destruct (String.length (ConnectionString d) =? 0)%nat eqn:H1.
  { apply length_zero_empty in H1. repeat split; intros; congruence. }
  destruct (String.length (Username d) =? 0)%nat eqn:H2.
  { apply length_zero_empty in H2. repeat split; intros; try congruence.
    apply length_zero_empty in H0. congruence. }
  destruct (String.length (Password d) =? 0)%nat eqn:H3.
  { apply length_zero_empty in H3. repeat split; intros; try congruence.
    - apply length_zero_empty in H0. congruence.
    - apply length_zero_empty in H4. congruence. }
  repeat split; intros.
  - apply length_zero_empty in H0. congruence.
  - apply length_zero_empty in H4. congruence.
  - apply length_zero_empty in H5. congruence.
  - subst verify. reflexivity.
Qed.

Lemma Init_validation_order_witness :
  (Init demoWorld new_connProducer []
        (<["connection_string" := CString "couchbase://localhost"]> ∅) true).1.1
  = Err (ErrorsNew "username cannot be empty")
  /\ Init demoWorld new_connProducer []
          (<["connection_string" := CString "couchbase://localhost"]>
           (<["username" := CString "admin"]>
            (<["password" := CString "password"]> ∅))) false
     = (Ok (<["connection_string" := CString "couchbase://localhost"]>
            (<["username" := CString "admin"]>
             (<["password" := CString "password"]> ∅))),
        set_Initialized
          (decoded demoWorld new_connProducer
             (<["connection_string" := CString "couchbase://localhost"]>
              (<["username" := CString "admin"]>
               (<["password" := CString "password"]> ∅)))) true,
        [])
  /\ Bucket
       (decoded demoWorld new_connProducer
          (<["connection_string" := CString "couchbase://localhost"]>
           (<["username" := CString "admin"]>
            (<["password" := CString "password"]> ∅)))) = "".
Proof.
  split; [| split; [| reflexivity]].
  - destruct (Init_validation_order
                demoWorld new_connProducer []
                (<["connection_string" := CString "couchbase://localhost"]> ∅)
                true) as (_ & _ & Huser & _).
    apply Huser; [reflexivity | vm_compute; discriminate | reflexivity].
  - destruct (Init_validation_order
                demoWorld new_connProducer []
                (<["connection_string" := CString "couchbase://localhost"]>
                 (<["username" := CString "admin"]>
                  (<["password" := CString "password"]> ∅))) false)
      as (_ & _ & _ & _ & Hok).
    apply Hok; try reflexivity; vm_compute; discriminate.
Defined.

(** X10: [Init] without verification calls nothing, whatever the
    configuration is, and leaves the cached cluster and manager as they
    were: a new configuration does not close, drop or replace a
    connection made under the old one. *)
Theorem Init_unverified_is_local w c tr conf :
  (Init w c tr conf false).2 = tr
  /\ cluster (Init w c tr conf false).1.2 = cluster c
  /\ clusterManager (Init w c tr conf false).1.2 = clusterManager c.
Proof.
  destruct (decoded_cache w c conf) as [E1 E2].
  split.
  - destruct (Init_trace w c tr conf false) as [H | [H _]];
      [exact H | discriminate H].
  - destruct (Init_state w c tr conf false) as [-> | [[_ ->] | [H _]]];
      [auto | auto | discriminate H].
Qed.

Lemma Connection_Ok_trace w c tr cl c' tr' :
  Connection w c tr = (Ok cl, c', tr') -> tr' = tr ++ acquire_calls c tr.
Proof.
  unfold Connection, acquire_calls, acquired.
  case_oracles; intros H; inversion H. rewrite <- !app_assoc. reflexivity.
Qed.

(** X11: an [Init] with verification that returns success hands back
    the configuration it was given, has made exactly the three calls of
    one acquire, with the endpoint, admin credentials and bucket just
    decoded, and leaves the flag on and the verified cluster and its
    manager cached. *)
Theorem Init_verified_success w c tr conf v c' tr' :
  Init w c tr conf true = (Ok v, c', tr') ->
  v = conf
  /\ tr' = tr ++ acquire_calls (decoded w c conf) tr
  /\ Initialized c' = true
  /\ cluster c' = Some (acquired tr)
  /\ clusterManager c'
     = Some (Manager (acquired tr) (Username (decoded w c conf))
                     (Password (decoded w c conf)))
  /\ stored c' = stored (set_Initialized (decoded w c conf) true).
Proof.
  rewrite Init_unfold. cbv zeta.
  set (d := decoded w c conf).
  destruct (decode_error w c conf); [discriminate |].
  destruct (_ =? 0)%nat; [discriminate |].
  destruct (_ =? 0)%nat; [discriminate |].
  destruct (_ =? 0)%nat; [discriminate |].
  destruct (Connection w (set_Initialized d true) tr) as [[[cl | e] c1] tr1] eqn:E;
    [| discriminate].
  intros H; inversion H; subst.
  pose proof (Connection_Ok_trace _ _ _ _ _ _ E) as Htr.
  apply Connection_Ok_state in E. destruct E as [-> ->].
  repeat split. exact Htr.
Qed.

Lemma Init_verified_success_witness :
  Init demoWorld new_connProducer [] testConf true
  = (Ok testConf, connectedProducer, connectedTrace)
  /\ cluster connectedProducer = Some (acquired []).
Proof.
  split; [reflexivity |].
  eapply (Init_verified_success demoWorld new_connProducer [] testConf).
  reflexivity.
Defined.

(** ** What a returned credential stands for *)

Lemma upsertUser_Ok_inv w m s u p tr u' p' tr' :
  upsertUser w m s u p tr = (Ok (u', p'), tr') ->
  u' = u /\ p' = p
  /\ exists st,
      json_Unmarshal w s = Ok st /\ Roles st <> []
      /\ manager_UpsertUser w tr m authDomain u
           (mkUserSettings u p (ToGocbUserRoles (Roles st))) = None
      /\ tr' = tr ++ [EvUpsertUser m authDomain u
                        (mkUserSettings u p (ToGocbUserRoles (Roles st)))].
Proof.
  unfold upsertUser.
  destruct (json_Unmarshal w s) as [st | e] eqn:Hun; [| discriminate].
  destruct (Roles st) as [| r rs] eqn:Hroles; [discriminate |]. simpl.
  destruct (manager_UpsertUser _ _ _ _ _ _) eqn:Hup; [discriminate |].
  intros H; inversion H; subst.
  split; [reflexivity |]. split; [reflexivity |].
  exists st. rewrite Hroles.
  split; [reflexivity |]. split; [discriminate |].
  split; [exact Hup | reflexivity].
Qed.

(** X12: a credential is handed out only for an identity the cluster has
    accepted.  When [CreateUser] or [SetCredentials] returns a username
    and password, the first creation statement parsed to at least one
    role, and the last call of the trace is an upsert the cluster
    answered without error: for that username, with that password and
    the parsed roles, on the manager of the cluster the call acquired,
    which is the cluster the plugin now caches.  [SetCredentials] returns
    the username and password it was given. *)
Theorem credential_means_accepted_upsert w c tr st :
  (forall cfg exp u pw c' tr',
      CreateUser w c tr st cfg exp = (Ok (u, pw), c', tr') ->
      exists tr0 m parsed,
        json_Unmarshal w
          (index0 (Creation (dbutil_StatementCompatibilityHelper w st)))
        = Ok parsed
        /\ Roles parsed <> []
        /\ tr' = tr0 ++ [EvUpsertUser (Some m) authDomain u
                           (mkUserSettings u pw (ToGocbUserRoles (Roles parsed)))]
        /\ manager_UpsertUser w tr0 (Some m) authDomain u
             (mkUserSettings u pw (ToGocbUserRoles (Roles parsed))) = None
        /\ cluster (producer c') = Some (mgrCluster m))
  /\ (forall sc u pw c' tr',
        SetCredentials w c tr st sc = (Ok (u, pw), c', tr') ->
        u = suUsername sc /\ pw = suPassword sc
        /\ exists tr0 m parsed,
            json_Unmarshal w
              (index0 (Creation (dbutil_StatementCompatibilityHelper w st)))
            = Ok parsed
            /\ Roles parsed <> []
            /\ tr' = tr0 ++ [EvUpsertUser (Some m) authDomain u
                               (mkUserSettings u pw
                                  (ToGocbUserRoles (Roles parsed)))]
            /\ manager_UpsertUser w tr0 (Some m) authDomain u
                 (mkUserSettings u pw (ToGocbUserRoles (Roles parsed))) = None
            /\ cluster (producer c') = Some (mgrCluster m)).
Proof.
  split.
  - intros cfg exp u pw c' tr'. unfold CreateUser.
    destruct (_ =? 0)%nat; [discriminate |].
    destruct (Connection w (producer c) tr) as [[[cl | e0] p] tr1] eqn:Hconn;
      [| discriminate].
    simpl.
    destruct (GenerateUsername (creds c) tr1 cfg) as [u0 | e1]; [| discriminate].
    destruct (GeneratePassword (creds c) _) as [pw0 | e2]; [| discriminate].
    destruct (upsertUser _ _ _ _ _ _) as [r tr3] eqn:Hup.
    intros H; inversion H; subst.
    apply upsertUser_Ok_inv in Hup.
    destruct Hup as (-> & -> & parsed & Hun & Hroles & Hacc & ->).
    apply Connection_Ok_state in Hconn. destruct Hconn as [-> _].
    simpl in *. eexists _, _, parsed.
    repeat split; [exact Hun | exact Hroles | exact Hacc].
  - intros sc u pw c' tr'. unfold SetCredentials.
    destruct (_ =? 0)%nat; [discriminate |].
    destruct (Connection w (producer c) tr) as [[[cl | e0] p] tr1] eqn:Hconn;
      [| discriminate].
    simpl.
    destruct (upsertUser _ _ _ _ _ _) as [r tr3] eqn:Hup.
    intros H; inversion H; subst.
    apply upsertUser_Ok_inv in Hup.
    destruct Hup as (-> & -> & parsed & Hun & Hroles & Hacc & ->).
    apply Connection_Ok_state in Hconn. destruct Hconn as [-> _].
    simpl in *. split; [reflexivity |]. split; [reflexivity |].
    eexists _, _, parsed.
    repeat split; [exact Hun | exact Hroles | exact Hacc].
Qed.

Lemma credential_means_accepted_upsert_witness :
  SetCredentials demoWorld connectedCouchbase connectedTrace
                 (mkStatements [testStatement])
                 (mkStaticUserConfig "test-user" "test-password")
  = (Ok ("test-user", "test-password"),
     set_producer connectedCouchbase
       (set_clusterManager
          (set_cluster connectedProducer (Some (acquired connectedTrace)))
          (Some (Manager (acquired connectedTrace) "admin" "password"))),
     (connectedTrace ++ acquire_calls connectedProducer connectedTrace)
       ++ [EvUpsertUser
             (Some (Manager (acquired connectedTrace) "admin" "password"))
             "local" "test-user"
             (mkUserSettings "test-user" "test-password"
                             [mkUserRole "bucket_full_access" "Test"])])
  /\ "test-user" = suUsername (mkStaticUserConfig "test-user" "test-password").
Proof.
  split; [reflexivity |].
  destruct (credential_means_accepted_upsert
              demoWorld connectedCouchbase connectedTrace
              (mkStatements [testStatement])) as [_ Hset].
  eapply Hset. reflexivity.
Defined.

(** X13: when the cluster rejects the upsert, [SetCredentials] returns
    no credential but the cluster's error wrapped as an upsert error;
    the upsert was attempted once, and the connection acquired for it
    stays cached. *)
Theorem upsert_rejected_by_cluster w c tr st sc s rest parsed cl p tr1 err :
  Creation (dbutil_StatementCompatibilityHelper w st) = s :: rest ->
  json_Unmarshal w s = Ok parsed ->
  Roles parsed <> [] ->
  Connection w (producer c) tr = (Ok cl, p, tr1) ->
  manager_UpsertUser w tr1 (clusterManager p) authDomain (suUsername sc)
    (mkUserSettings (suUsername sc) (suPassword sc)
                    (ToGocbUserRoles (Roles parsed))) = Some err ->
  SetCredentials w c tr st sc
  = (Err (ErrorsWrap err "error when upserting user"),
     set_producer c p,
     tr1 ++ [EvUpsertUser (clusterManager p) authDomain (suUsername sc)
               (mkUserSettings (suUsername sc) (suPassword sc)
                               (ToGocbUserRoles (Roles parsed)))])
  /\ cluster p = Some cl
  /\ clusterManager p
     = Some (Manager cl (Username (producer c)) (Password (producer c))).
Proof.
  intros Hs Hun Hroles Hconn Hrej.
  assert (Hne : Creation (dbutil_StatementCompatibilityHelper w st) <> [])
    by (rewrite Hs; discriminate).
  split.
  - rewrite (SetCredentials_upsert_step w c tr st sc cl p tr1 Hne Hconn).
    rewrite Hs. unfold index0. simpl.
    rewrite (upsertUser_accepted w _ s _ _ _ parsed Hun Hroles). simpl.
    rewrite Hrej. reflexivity.
  - apply Connection_Ok_state in Hconn. destruct Hconn as [-> _].
    split; reflexivity.
Qed.

Lemma upsert_rejected_by_cluster_witness :
  SetCredentials
    (worldWith None None None (Some (LibraryError "Forbidden")) None)
    connectedCouchbase connectedTrace (mkStatements [testStatement])
    (mkStaticUserConfig "test-user" "test-password")
  = (Err (ErrorsWrap (LibraryError "Forbidden") "error when upserting user"),
     set_producer connectedCouchbase
       (set_clusterManager
          (set_cluster connectedProducer (Some (acquired connectedTrace)))
          (Some (Manager (acquired connectedTrace) "admin" "password"))),
     (connectedTrace ++ acquire_calls connectedProducer connectedTrace)
       ++ [EvUpsertUser
             (Some (Manager (acquired connectedTrace) "admin" "password"))
             "local" "test-user"
             (mkUserSettings "test-user" "test-password"
                             [mkUserRole "bucket_full_access" "Test"])]).
Proof.
  apply (upsert_rejected_by_cluster
           (worldWith None None None (Some (LibraryError "Forbidden")) None)
           connectedCouchbase connectedTrace (mkStatements [testStatement])
           (mkStaticUserConfig "test-user" "test-password")
           testStatement []
           (mkCbStatement [mkCbRole "bucket_full_access" "Test"])
           (acquired connectedTrace)
           (set_clusterManager
              (set_cluster connectedProducer (Some (acquired connectedTrace)))
              (Some (Manager (acquired connectedTrace) "admin" "password")))
           (connectedTrace ++ acquire_calls connectedProducer connectedTrace)
           (LibraryError "Forbidden"));
    try reflexivity.
  discriminate.
Defined.

(** ** The order of failures in CreateUser *)

(** X14: [CreateUser], given a statement, stops at the first step that
    fails and returns that step's error as it is, in the order acquire,
    username, password.  A failed acquire generates nothing; a failed
    username generation asks for no password; and in none of the three
    cases is the statement read or an upsert made.  After a successful
    acquire the new connection stays cached whatever fails next. *)
Theorem CreateUser_stops_at_first_failure w c tr st cfg exp :
  Creation (dbutil_StatementCompatibilityHelper w st) <> [] ->
  (forall e p tr1,
      Connection w (producer c) tr = (Err e, p, tr1) ->
      CreateUser w c tr st cfg exp = (Err e, c, tr1))
  /\ (forall cl p tr1 e,
        Connection w (producer c) tr = (Ok cl, p, tr1) ->
        GenerateUsername (creds c) tr1 cfg = Err e ->
        CreateUser w c tr st cfg exp
        = (Err e, set_producer c p, tr1 ++ [EvGenerateUsername cfg]))
  /\ (forall cl p tr1 u e,
        Connection w (producer c) tr = (Ok cl, p, tr1) ->
        GenerateUsername (creds c) tr1 cfg = Ok u ->
        GeneratePassword (creds c) (tr1 ++ [EvGenerateUsername cfg]) = Err e ->
        CreateUser w c tr st cfg exp
        = (Err e, set_producer c p,
           (tr1 ++ [EvGenerateUsername cfg]) ++ [EvGeneratePassword])).
Proof.
  intros Hne. split; [| split].
  - intros e p tr1 Hconn.
    rewrite (CreateUser_Connection_fails w c tr st cfg exp e p tr1 Hne Hconn).
    apply Connection_Err_state in Hconn. subst p.
    rewrite set_producer_id. reflexivity.
  - intros cl p tr1 e Hconn Hu. unfold CreateUser.
    rewrite (nonempty_length _ Hne), Hconn. simpl. rewrite Hu. reflexivity.
  - intros cl p tr1 u e Hconn Hu Hp. unfold CreateUser.
    rewrite (nonempty_length _ Hne), Hconn. simpl. rewrite Hu, Hp. reflexivity.
Qed.

Lemma CreateUser_stops_at_first_failure_witness :
  Creation (dbutil_StatementCompatibilityHelper
              demoWorld (mkStatements [testStatement])) <> []
  /\ CreateUser demoWorld noUsernameCouchbase connectedTrace
                (mkStatements [testStatement]) testUsernameConfig 0
     = (Err (LibraryError "no entropy"),
        set_producer noUsernameCouchbase
          (set_clusterManager
             (set_cluster connectedProducer (Some (acquired connectedTrace)))
             (Some (Manager (acquired connectedTrace) "admin" "password"))),
        (connectedTrace ++ acquire_calls connectedProducer connectedTrace)
          ++ [EvGenerateUsername testUsernameConfig])
  /\ CreateUser unreachableWorld connectedCouchbase connectedTrace
                (mkStatements [testStatement]) testUsernameConfig 0
     = (Err (LibraryError "no route to host"), connectedCouchbase,
        connectedTrace ++ [EvConnect "couchbase://localhost"]).
Proof.
  assert (Hne : Creation (dbutil_StatementCompatibilityHelper
                            demoWorld (mkStatements [testStatement])) <> [])
    by discriminate.
  split; [exact Hne |]. split.
  - destruct (CreateUser_stops_at_first_failure
                demoWorld noUsernameCouchbase connectedTrace
                (mkStatements [testStatement]) testUsernameConfig 0 Hne)
      as (_ & Huser & _).
    eapply Huser; reflexivity.
  - destruct (CreateUser_stops_at_first_failure
                unreachableWorld connectedCouchbase connectedTrace
                (mkStatements [testStatement]) testUsernameConfig 0 Hne)
      as (Hconn & _).
    eapply Hconn. reflexivity.
Defined.

(** ** Roles, one by one *)

(** X15: [ToGocbUserRoles] loses nothing: two role lists that convert
    to the same list are the same list (duplicates and order included),
    and converting a concatenation is concatenating the conversions. *)
Theorem ToGocbUserRoles_faithful :
  (forall roles1 roles2,
      ToGocbUserRoles (roles1 ++ roles2)
      = ToGocbUserRoles roles1 ++ ToGocbUserRoles roles2)
  /\ (forall roles1 roles2,
        ToGocbUserRoles roles1 = ToGocbUserRoles roles2 -> roles1 = roles2).
Proof.
  split.
  - intros roles1 roles2. rewrite !ToGocbUserRoles_map. apply List.map_app.
  - intros roles1 roles2. rewrite !ToGocbUserRoles_map.
    revert roles2. induction roles1 as [| r1 roles1 IH];
      intros [| r2 roles2] H; simpl in H; try discriminate H; [reflexivity |].
    inversion H as [[Hrole Hbucket Hrest]].
    destruct r1, r2; simpl in *; subst. f_equal. apply IH, Hrest.
Qed.

Lemma ToGocbUserRoles_faithful_witness :
  ToGocbUserRoles [mkCbRole "bucket_admin" "Products"]
  = ToGocbUserRoles [mkCbRole "bucket_admin" "Products"]
  /\ [mkCbRole "bucket_admin" "Products"] = [mkCbRole "bucket_admin" "Products"].
Proof.
  split; [reflexivity |].
  apply (proj2 ToGocbUserRoles_faithful). reflexivity.
Defined.

(** ** Secrets *)

(** X16: the values to scrub are the admin password and nothing else:
    the map of [secretValues] sends the password to the placeholder
    [[password]] and has no other key, so neither the admin username nor
    the endpoint is scrubbed unless it equals the password. *)
Theorem secretValues_only_password c :
  secretValues c !! Password c = Some "[password]"
  /\ (forall k, k <> Password c -> secretValues c !! k = None)
  /\ size (secretValues c) = 1.
Proof.
  unfold secretValues. split; [apply lookup_singleton_eq |].
  split; [| apply map_size_singleton].
  intros k Hk. apply lookup_singleton_ne. congruence.
Qed.

Lemma secretValues_only_password_witness :
  "admin" <> Password connectedProducer
  /\ secretValues connectedProducer !! "admin" = None
  /\ secretValues connectedProducer !! "password" = Some "[password]".
Proof.
  assert (N : "admin" <> Password connectedProducer) by discriminate.
  destruct (secretValues_only_password connectedProducer) as (Hpw & Hother & _).
  split; [exact N |]. split; [exact (Hother "admin" N) | exact Hpw].
Defined.

(** ** Initialize *)

Lemma Init_Ok_Initialized w c tr conf verify v :
  (Init w c tr conf verify).1.1 = Ok v ->
  Initialized (Init w c tr conf verify).1.2 = true.
Proof.
  rewrite Init_unfold. cbv zeta.
  destruct (decode_error w c conf); [discriminate |].
  destruct (_ =? 0)%nat; [discriminate |].
  destruct (_ =? 0)%nat; [discriminate |].
  destruct (_ =? 0)%nat; [discriminate |].
  destruct verify; [| reflexivity].
  pose proof (Connection_keeps_Initialized
                w (set_Initialized (decoded w c conf) true) tr) as H.
  destruct (Connection w _ tr) as [[[cl | e] c'] tr']; simpl in *;
    [intros _; exact H | discriminate].
Qed.

(** X17: [Initialize] is [Init] without the returned configuration: it
    leaves the same producer and trace, returns an error exactly when
    [Init] does, and that same error; and when it returns nil the flag is
    on. *)
Theorem Initialize_follows_Init w c tr conf verify :
  (Initialize w c tr conf verify).1.2 = (Init w c tr conf verify).1.2
  /\ (Initialize w c tr conf verify).2 = (Init w c tr conf verify).2
  /\ (forall e,
        (Initialize w c tr conf verify).1.1 = Some e
        <-> (Init w c tr conf verify).1.1 = Err e)
  /\ ((Initialize w c tr conf verify).1.1 = None ->
      (Init w c tr conf verify).1.1 = Ok conf
      /\ Initialized (Initialize w c tr conf verify).1.2 = true).
Proof.
  pose proof (Init_Ok_Initialized w c tr conf verify) as Hflag.
  assert (Hconf : forall v, (Init w c tr conf verify).1.1 = Ok v -> v = conf).
  { rewrite Init_unfold. cbv zeta. case_oracles; simpl; intros v H;
      inversion H; reflexivity. }
  unfold Initialize.
  destruct (Init w c tr conf verify) as [[[v | e0] c'] tr']; simpl in *.
  - split; [reflexivity |]. split; [reflexivity |].
    split; [intros e; split; discriminate |].
    intros _. rewrite (Hconf v eq_refl). split; [reflexivity |].
    apply (Hflag v). reflexivity.
  - split; [reflexivity |]. split; [reflexivity |].
    split; [| discriminate].
    intros e; split; intros H; inversion H; reflexivity.
Qed.

Lemma Initialize_follows_Init_witness :
  (Initialize demoWorld new_connProducer [] testConf true).1.1 = None
  /\ (Init demoWorld new_connProducer [] testConf true).1.1 = Ok testConf
  /\ Initialized (Initialize demoWorld new_connProducer [] testConf true).1.2
     = true.
Proof.
  destruct (Initialize_follows_Init demoWorld new_connProducer [] testConf true)
    as (_ & _ & _ & Hnil).
  split; [reflexivity |]. exact (Hnil eq_refl).
Defined.

(** ** No call on a nil manager *)

Lemma extends_by_forallb P tr tr' :
  forallb P tr = true -> extends_by P tr tr' -> forallb P tr' = true.
Proof.
  intros H (evs & -> & Hevs). rewrite forallb_app, H, Hevs. reflexivity.
Qed.

Lemma connection_call_has_manager e :
  is_connection_call e = true -> has_manager e = true.
Proof. destruct e; simpl; intros H; try discriminate H; reflexivity. Qed.

Lemma upsertUser_has_manager w m s u p tr :
  extends_by has_manager tr (upsertUser w (Some m) s u p tr).2.
Proof.
  unfold upsertUser. case_oracles; simpl;
    repeat (apply extends_by_snoc; [| reflexivity]); apply extends_by_refl.
Qed.

Lemma Connection_has_manager w c tr :
  extends_by has_manager tr (Connection w c tr).2.
Proof.
  eapply extends_by_weaken;
    [apply connection_call_has_manager | apply Connection_extends].
Qed.

Lemma CreateUser_has_manager w c tr st cfg exp :
  extends_by has_manager tr (CreateUser w c tr st cfg exp).2.
Proof.
  pose proof (Connection_has_manager w (producer c) tr) as Hconn.
  unfold CreateUser.
  destruct (_ =? 0)%nat; [apply extends_by_refl |].
  destruct (Connection w (producer c) tr) as [[[cl | e0] p] tr1] eqn:E;
    simpl in *; [| exact Hconn].
  destruct (GenerateUsername (creds c) tr1 cfg) as [u | e1]; simpl.
  2: { apply extends_by_snoc; [exact Hconn | reflexivity]. }
  destruct (GeneratePassword (creds c) _) as [pw | e2]; simpl.
  2: { repeat (apply extends_by_snoc; [| reflexivity]). exact Hconn. }
  rewrite (Connection_Ok_manager _ _ _ _ _ _ E).
  pose proof (upsertUser_has_manager w
                (Manager cl (Username (producer c)) (Password (producer c)))
                (index0 (Creation (dbutil_StatementCompatibilityHelper w st)))
                u pw ((tr1 ++ [EvGenerateUsername cfg]) ++ [EvGeneratePassword]))
    as Hup.
  destruct (upsertUser _ _ _ _ _ _) as [r tr3]. simpl in *.
  apply (extends_by_trans _ _
           ((tr1 ++ [EvGenerateUsername cfg]) ++ [EvGeneratePassword]));
    [| exact Hup].
  repeat (apply extends_by_snoc; [| reflexivity]). exact Hconn.
Qed.

Lemma SetCredentials_has_manager w c tr st sc :
  extends_by has_manager tr (SetCredentials w c tr st sc).2.
Proof.
  pose proof (Connection_has_manager w (producer c) tr) as Hconn.
  unfold SetCredentials.
  destruct (_ =? 0)%nat; [apply extends_by_refl |].
  destruct (Connection w (producer c) tr) as [[[cl | e0] p] tr1] eqn:E;
    simpl in *; [| exact Hconn].
  rewrite (Connection_Ok_manager _ _ _ _ _ _ E).
  pose proof (upsertUser_has_manager w
                (Manager cl (Username (producer c)) (Password (producer c)))
                (index0 (Creation (dbutil_StatementCompatibilityHelper w st)))
                (suUsername sc) (suPassword sc) tr1) as Hup.
  destruct (upsertUser _ _ _ _ _ _) as [r tr2]. simpl in *.
  eapply extends_by_trans; [exact Hconn | exact Hup].
Qed.

Lemma RevokeUser_has_manager w c tr st username :
  extends_by has_manager tr (RevokeUser w c tr st username).2.
Proof.
  pose proof (Connection_has_manager w (producer c) tr) as Hconn.
  unfold RevokeUser.
  destruct (Connection w (producer c) tr) as [[[cl | e0] p] tr1] eqn:E;
    simpl in *; [| exact Hconn].
  rewrite (Connection_Ok_manager _ _ _ _ _ _ E).
  apply extends_by_snoc; [exact Hconn | reflexivity].
Qed.

(** X18: however a plugin built by [new] is driven, no upsert and no
    remove is ever made on a nil manager: the manager field is read only
    after the acquire of the same call has set it, so calling
    [CreateUser], [SetCredentials] or [RevokeUser] before any connection
    exists, or after a [Close], cannot dereference nil. *)
Theorem manager_is_never_nil w c tr :
  reachable w c tr -> forallb has_manager tr = true.
Proof.
  induction 1 as [| c tr conf verify _ IH | c tr _ IH | c tr st cfg exp _ IH
                  | c tr st sc _ IH | c tr st username exp _ IH
                  | c tr st username _ IH | c tr statements _ IH];
    try exact IH; try reflexivity;
    eapply extends_by_forallb; try exact IH.
  - eapply extends_by_weaken;
      [apply connection_call_has_manager | apply Init_extends].
  - eapply extends_by_weaken; [| apply Close_extends].
    intros [] H; try discriminate H; reflexivity.
  - apply CreateUser_has_manager.
  - apply SetCredentials_has_manager.
  - apply RevokeUser_has_manager.
Qed.

Lemma manager_is_never_nil_witness :
  reachable demoWorld
    (RevokeUser demoWorld
       (set_producer (new demoWorld)
          (Init demoWorld new_connProducer [] testConf false).1.2)
       [] (mkStatements []) "test-user").1.2
    (RevokeUser demoWorld
       (set_producer (new demoWorld)
          (Init demoWorld new_connProducer [] testConf false).1.2)
       [] (mkStatements []) "test-user").2
  /\ forallb has_manager
       (RevokeUser demoWorld
          (set_producer (new demoWorld)
             (Init demoWorld new_connProducer [] testConf false).1.2)
          [] (mkStatements []) "test-user").2 = true.
Proof.
  assert (R : reachable demoWorld
                (RevokeUser demoWorld
                   (set_producer (new demoWorld)
                      (Init demoWorld new_connProducer [] testConf false).1.2)
                   [] (mkStatements []) "test-user").1.2
                (RevokeUser demoWorld
                   (set_producer (new demoWorld)
                      (Init demoWorld new_connProducer [] testConf false).1.2)
                   [] (mkStatements []) "test-user").2).
  { apply (reach_RevokeUser demoWorld
             (set_producer (new demoWorld)
                (Init demoWorld new_connProducer [] testConf false).1.2) []).
    exact (reach_Init demoWorld (new demoWorld) [] testConf false
                      (reach_new demoWorld)). }
  split; [exact R |].
  exact (manager_is_never_nil demoWorld _ _ R).
Defined.
